(** * Terzaghi bearing capacity: the calculation class of [terzaghi.js]

    A shallow embedding of [class TerzaghiBearingCapacity], of the two
    globals it reads, [unitWeightWater] and [NTerzaghi], and of the React
    component that collects the form fields and calls the constructor.

    JavaScript Numbers are IEEE-754 binary64 values, and so are Rocq's
    primitive floats: a Number is a [float], a numeric literal of the source
    is the same literal in [float_scope], and [+ - * /] and the comparisons
    are the primitive operations, NaN, the infinities and the signed zeros
    included.  The arguments are what the class comment asks for: Numbers,
    a string for [shape], and [undefined] ([None]) or a Number for
    [groundwaterDepth].

    The constructor assigns the fields of [this] in sequence and either
    returns the instance or throws; it is a function from the arguments to
    a completion.

    The second half of the file is the form around the class: the
    validators, [getRadioValue] and the handlers of [BearingCapacityApp],
    which call the constructor with the strings typed into the form. *)

From Stdlib Require Import ZArith Lia Bool List String Ascii DecimalString.
From Stdlib Require Import Uint63 Floats Zpower.
Import ListNotations.

(* A decimal literal denotes the nearest binary64 value, as in JavaScript. *)
#[local] Set Warnings "-inexact-float".

Local Open Scope float_scope.

(** ** JavaScript numbers *)

Module JS.

Definition number := float.

(** [undefined], or a Number. *)
Definition optnumber := option number.

(** ToNumber: [undefined] becomes NaN. *)
Definition ToNumber (v : optnumber) : number :=
  match v with
  | Some x => x
  | None => nan
  end.

(** ToBoolean: [undefined], [+0], [-0] and NaN are falsy. *)
Definition ToBoolean (v : optnumber) : bool :=
  match v with
  | Some x => negb ((x =? 0) || is_nan x)
  | None => false
  end.

(** [x >= y] is evaluated as [y <= x]. *)
Definition geb (x y : number) : bool := y <=? x.

(** The Number of an integer literal. *)
Definition of_Z (k : Z) : number := of_uint63 (Uint63.of_Z k).

(** [Math.round]: the integral Number closest to [x], ties towards
    +Infinity; NaN, the infinities and the zeros are returned unchanged,
    and a negative [x >= -0.5] gives [-0].  A finite [x = ±m * 2^e] with
    [e >= 0] is integral already; otherwise the result is
    [floor (x + 1/2)], computed exactly on the mantissa. *)
Definition Math_round (x : number) : number :=
  match Prim2SF x with
  | S754_finite s m e =>
      if (0 <=? e)%Z then x
      else
        let n := Z.shiftr (cond_Zopp s (Zpos m) + Z.pow 2 (- e - 1)) (- e) in
        SF2Prim (binary_normalize prec emax n 0 s)
  | _ => x
  end.

(** What a constructor call completes with.  A thrown value is an Error
    object, told from the other kinds of error by its [name].  The source
    has no [throw] statement and defines no error class: the one throw of the
    constructor is the engine's, the TypeError of reading a property of
    [undefined]. *)
Inductive error := Error (name : string).

Definition TypeError : error := Error "TypeError".

Inductive completion (A : Type) :=
| Normal (a : A)
| Throw (e : error).
Arguments Normal {A} a.
Arguments Throw {A} e.

End JS.

Import JS.

(** ** Globals *)

Definition unitWeightWater : number := 62.4.

(** Terzaghi bearing capacity factors. key=phi, value=[Nc, Nq, Ng] *)
Definition NTerzaghi : list (Z * (number * number * number)) :=
  [ (0%Z, (5.7, 1, 0));
    (1%Z, (6, 1.1, 0.1));
    (2%Z, (6.3, 1.2, 0.1));
    (3%Z, (6.6, 1.3, 0.2));
    (4%Z, (7, 1.5, 0.3));
    (5%Z, (7.3, 1.6, 0.4));
    (6%Z, (7.7, 1.8, 0.5));
    (7%Z, (8.2, 2, 0.6));
    (8%Z, (8.6, 2.2, 0.7));
    (9%Z, (9.1, 2.4, 0.9));
    (10%Z, (9.6, 2.7, 1));
    (11%Z, (10.2, 3, 1.2));
    (12%Z, (10.8, 3.3, 1.4));
    (13%Z, (11.4, 3.6, 1.6));
    (14%Z, (12.1, 4, 1.9));
    (15%Z, (12.9, 4.4, 2.2));
    (16%Z, (13.7, 4.9, 2.5));
    (17%Z, (14.6, 5.5, 2.9));
    (18%Z, (15.5, 6, 3.3));
    (19%Z, (16.6, 6.7, 3.8));
    (20%Z, (17.7, 7.4, 4.4));
    (21%Z, (18.9, 8.3, 5.1));
    (22%Z, (20.3, 9.2, 5.9));
    (23%Z, (21.7, 10.2, 6.8));
    (24%Z, (23.4, 11.4, 7.9));
    (25%Z, (25.1, 12.7, 9.2));
    (26%Z, (27.1, 14.2, 10.7));
    (27%Z, (29.2, 15.9, 12.5));
    (28%Z, (31.6, 17.8, 14.6));
    (29%Z, (34.2, 20, 17.1));
    (30%Z, (37.2, 22.5, 20.1));
    (31%Z, (40.4, 25.3, 23.7));
    (32%Z, (44, 28.5, 28));
    (33%Z, (48.1, 32.2, 33.3));
    (34%Z, (52.6, 36.5, 39.6));
    (35%Z, (57.8, 41.4, 47.3));
    (36%Z, (63.5, 47.2, 56.7));
    (37%Z, (70.1, 53.8, 68.1));
    (38%Z, (77.5, 61.5, 82.3));
    (39%Z, (86, 70.6, 99.8));
    (40%Z, (95.7, 81.3, 121.5));
    (41%Z, (106.8, 93.8, 148.5)) ].

(** The property read [NTerzaghi[phi]].  The property key of a Number is its
    decimal string, and that string is the numeral of a key [k] of the table
    exactly when the Number is numerically equal to [k] ([-0] prints as
    ["0"]; NaN, the infinities, fractions and every other integer print as
    strings that name no property of the object).  [None] is [undefined]. *)
Fixpoint get (t : list (Z * (number * number * number))) (phi : number)
  : option (number * number * number) :=
  match t with
  | [] => None
  | (k, row) :: t' => if phi =? of_Z k then Some row else get t' phi
  end.

(** ** The class *)

Record TerzaghiBearingCapacity := {
  cohesion : number;
  phi : number;
  depth : number;
  unitWeight : number;
  width : number;
  shape : string;
  groundwaterDepth : number;
  FS : number;
  effectiveUnitWeight : number;
  effectiveStress : number;
  Nc : number;
  Nq : number;
  Ng : number;
  coef1 : number;
  coef2 : number;
  coef3 : number;
  equation : string;
  bearingCapacity : number;
  allowableCapacity : number;
  console : list string
}.

(** Line 97: [if (!this.groundwaterDepth) this.groundwaterDepth = 2 * (this.depth + this.width)]. *)
Definition defaultGroundwaterDepth (depth width : number) (groundwaterDepth : optnumber) : number :=
  if negb (ToBoolean groundwaterDepth) then 2 * (depth + width)
  else ToNumber groundwaterDepth.

(** Lines 100-106, on [this.groundwaterDepth]. *)
Definition effectiveUnitWeightOf (depth unitWeight width gw : number) : number :=
  if gw <=? depth then unitWeight - unitWeightWater
  else if (depth <? gw) && (gw <? depth + width)
       then unitWeight - unitWeightWater * (1 - (gw - depth) / width)
       else unitWeight.

(** Lines 109-114.  The test reads [this.groundwaterDepth] ([gw]); the pore
    pressure reads the constructor's parameter [groundwaterDepth]. *)
Definition effectiveStressOf (depth unitWeight gw : number) (groundwaterDepth : optnumber) : number :=
  if geb gw depth then unitWeight * depth
  else
    let totalStress := unitWeight * depth in
    let porePressure := (depth - ToNumber groundwaterDepth) * unitWeightWater in
    totalStress - porePressure.

(** Lines 122-148: [(coef1, coef2, coef3, equation, console output)]. *)
Definition shapeCoefficients (shape : string)
  : number * number * number * string * list string :=
  if String.eqb shape "square" then
    (1.3, 1, 0.4, "(1.3 c * Nq) + (Eff.Stress * Nq) + (0.4 * gamma * B * Ng)"%string, [])
  else if String.eqb shape "continuous" then
    (1, 1, 0.5, "(c * Nq) + (Eff.Stress * Nq) + (0.5 * gamma * B * Ng)"%string, [])
  else if String.eqb shape "circular" then
    (1.3, 1, 0.3, "(1.3 c * Nq) + (Eff.Stress * Nq) + (0.3 * gamma * B * Ng)"%string, [])
  else
    (1, 1, 0.5, "(c * Nq) + (Eff.Stress * Nq) + (0.5 * gamma * B * Ng)"%string,
     ["Error: bad shape choice. Defaulting to continuous"%string]).

(** [new TerzaghiBearingCapacity(cohesion, phi, depth, unitWeight, width,
    shape, groundwaterDepth, FS)].  The only statement that can throw is
    the read [NTerzaghi[this.phi][0]] of line 117, a TypeError when
    [NTerzaghi[this.phi]] is [undefined].  The [calculation] string (line
    154) is a rendering of fields computed here and is left out. *)
Definition constructor (cohesion phi depth unitWeight width : number) (shape : string)
    (groundwaterDepth : optnumber) (FS : number) : completion TerzaghiBearingCapacity :=
  let gw := defaultGroundwaterDepth depth width groundwaterDepth in
  let effectiveUnitWeight := effectiveUnitWeightOf depth unitWeight width gw in
  let effectiveStress := effectiveStressOf depth unitWeight gw groundwaterDepth in
  match get NTerzaghi phi with
  | None => Throw TypeError
  | Some (Nc, Nq, Ng) =>
      let '(coef1, coef2, coef3, equation, out) := shapeCoefficients shape in
      let bearingCapacity :=
        Math_round ((coef1 * cohesion * Nc) + (coef2 * effectiveStress * Nq)
                    + (coef3 * effectiveUnitWeight * width * Ng)) in
      let allowableCapacity := Math_round (bearingCapacity / FS) in
      Normal {| cohesion := cohesion; phi := phi; depth := depth;
                unitWeight := unitWeight; width := width; shape := shape;
                groundwaterDepth := gw; FS := FS;
                effectiveUnitWeight := effectiveUnitWeight;
                effectiveStress := effectiveStress;
                Nc := Nc; Nq := Nq; Ng := Ng;
                coef1 := coef1; coef2 := coef2; coef3 := coef3;
                equation := equation;
                bearingCapacity := bearingCapacity;
                allowableCapacity := allowableCapacity;
                console := out |}
  end.

(** ** Vocabulary of the statements *)

(** [phi] is numerically one of the integers 0, 1, ..., 41. *)
Definition integer_0_41 (phi : number) : bool :=
  existsb (fun n => phi =? of_Z (Z.of_nat n)) (seq 0 42).

(** The row the table stores under the key [k]. *)
Definition entry (k : Z) : option (number * number * number) :=
  option_map snd (find (fun e => Z.eqb (fst e) k) NTerzaghi).

Definition coefs (r : TerzaghiBearingCapacity) : number * number * number :=
  (coef1 r, coef2 r, coef3 r).

(** [r] is the instance the constructor builds from its arguments once the
    table row [(nc, nq, ng)] has been read. *)
Definition built (r : TerzaghiBearingCapacity)
    (c ph D uw B : number) (sh : string) (Dw : optnumber) (fs : number)
    (nc nq ng : number) : Prop :=
  cohesion r = c /\ phi r = ph /\ depth r = D /\ unitWeight r = uw /\
  width r = B /\ shape r = sh /\ FS r = fs /\
  groundwaterDepth r = defaultGroundwaterDepth D B Dw /\
  effectiveUnitWeight r = effectiveUnitWeightOf D uw B (groundwaterDepth r) /\
  effectiveStress r = effectiveStressOf D uw (groundwaterDepth r) Dw /\
  Nc r = nc /\ Nq r = nq /\ Ng r = ng /\
  (coef1 r, coef2 r, coef3 r, equation r, console r) = shapeCoefficients sh /\
  bearingCapacity r =
    Math_round ((coef1 r * c * nc) + (coef2 r * effectiveStress r * nq)
                + (coef3 r * effectiveUnitWeight r * B * ng)) /\
  allowableCapacity r = Math_round (bearingCapacity r / fs).

(** Case analysis on every integer comparison [SFcompare] makes. *)
Ltac compare_cases :=
  repeat match goal with
  | |- context [Z.compare ?a ?b] => destruct (Z.compare_spec a b)
  | |- context [Pos.compare_cont Eq ?a ?b] =>
      change (Pos.compare_cont Eq a b) with (Pos.compare a b);
      destruct (Pos.compare_spec a b)
  end.

(** ** The form: regular expressions

    The two patterns of the validators use character classes, sequence,
    alternation, [+], [?] and [*], each anchored at both ends by [^] and
    [$].  [search] on such a pattern returns 0 when the whole string matches
    and -1 otherwise; matching is by derivatives. *)

Module RegExp.

Inductive regex :=
| Empty
| Eps
| Class (p : ascii -> bool)
| Seq (r1 r2 : regex)
| Alt (r1 r2 : regex)
| Star (r : regex).

Definition Plus (r : regex) : regex := Seq r (Star r).
Definition Opt (r : regex) : regex := Alt r Eps.

Fixpoint nullable (r : regex) : bool :=
  match r with
  | Empty => false
  | Eps => true
  | Class _ => false
  | Seq r1 r2 => nullable r1 && nullable r2
  | Alt r1 r2 => nullable r1 || nullable r2
  | Star _ => true
  end.

Fixpoint deriv (c : ascii) (r : regex) : regex :=
  match r with
  | Empty => Empty
  | Eps => Empty
  | Class p => if p c then Eps else Empty
  | Seq r1 r2 =>
      if nullable r1 then Alt (Seq (deriv c r1) r2) (deriv c r2)
      else Seq (deriv c r1) r2
  | Alt r1 r2 => Alt (deriv c r1) (deriv c r2)
  | Star r1 => Seq (deriv c r1) (Star r1)
  end.

Fixpoint fullmatch (r : regex) (s : string) : bool :=
  match s with
  | EmptyString => nullable r
  | String c s' => fullmatch (deriv c r) s'
  end.

(** [string.search(/^r$/)]. *)
Definition search (r : regex) (s : string) : Z :=
  if fullmatch r s then 0%Z else (-1)%Z.

(** The language of a pattern. *)
Inductive matches : regex -> string -> Prop :=
| m_eps : matches Eps EmptyString
| m_class p c : p c = true -> matches (Class p) (String c EmptyString)
| m_seq r1 r2 s1 s2 :
    matches r1 s1 -> matches r2 s2 -> matches (Seq r1 r2) (s1 ++ s2)%string
| m_alt_l r1 r2 s : matches r1 s -> matches (Alt r1 r2) s
| m_alt_r r1 r2 s : matches r2 s -> matches (Alt r1 r2) s
| m_star_nil r : matches (Star r) EmptyString
| m_star_cons r c s1 s2 :
    matches r (String c s1) -> matches (Star r) s2 ->
    matches (Star r) (String c s1 ++ s2)%string.

End RegExp.
Import RegExp.

(** [[0-9]] and [[.]]. *)
Definition isDigit (c : ascii) : bool := Ascii.leb "0" c && Ascii.leb c "9".
Definition digit : regex := Class isDigit.
Definition point : regex := Class (fun c => Ascii.eqb c ".").

Fixpoint all_digits (s : string) : bool :=
  match s with
  | EmptyString => true
  | String c s' => isDigit c && all_digits s'
  end.

(** Digits, or digits around one point with a digit on at least one side. *)
Definition decimalText (s : string) : Prop :=
  (s <> EmptyString /\ all_digits s = true) \/
  exists i f : string,
    s = (i ++ String "." f)%string /\ all_digits i = true /\ all_digits f = true /\
    (i <> EmptyString \/ f <> EmptyString).

(** [/^[0-9]+[.]?[0-9]*$|^[.][0-9]+$/] of [isValidFloat] and [/^[0-9]+$/] of
    [isValidInt]. *)
Definition floatPattern : regex :=
  Alt (Seq (Plus digit) (Seq (Opt point) (Star digit))) (Seq point (Plus digit)).
Definition intPattern : regex := Plus digit.

(** ** The form: texts as Numbers

    The fields of the form reach the validators and the constructor as
    strings.  Where the source does arithmetic on them, or compares one with
    a Number, JavaScript takes the Number of the string: the decimal value,
    rounded to the nearest binary64 value, ties to even.  [StringToNumber]
    is that function on the texts the validators accept, an unsigned
    decimal literal [digits], [digits.], [digits.digits] or [.digits]; the
    empty string is 0.  Signs, exponents, white space and the other
    literals of JavaScript are not modelled: such a text is given NaN here,
    and every statement below that reads the Number of a text is about
    texts made of digits and at most one point. *)

Definition StrUnsignedDecimalLiteral : regex :=
  Alt (Seq (Plus digit) (Seq point (Opt (Plus digit))))
      (Alt (Seq point (Plus digit)) (Plus digit)).

Definition digit_value (c : ascii) : Z := (Z.of_nat (nat_of_ascii c) - 48)%Z.

Fixpoint digits_value (acc : Z) (s : string) : Z :=
  match s with
  | EmptyString => acc
  | String c s' => digits_value (10 * acc + digit_value c) s'
  end.

Fixpoint split_point (s : string) : string * string :=
  match s with
  | EmptyString => (EmptyString, EmptyString)
  | String c s' =>
      if Ascii.eqb c "." then (EmptyString, s')
      else let '(i, f) := split_point s' in (String c i, f)
  end.

(** [n / 10 ^ k] rounded to binary64: the division of the two integers. *)
Definition RoundMV (n : Z) (k : nat) : number :=
  match n with
  | Zpos p =>
      SF2Prim (SFdiv prec emax (S754_finite false p 0)
                                 (S754_finite false (Z.to_pos (10 ^ Z.of_nat k)) 0))
  | _ => 0
  end.

Definition StringToNumber (s : string) : number :=
  match s with
  | EmptyString => 0
  | _ =>
      if fullmatch StrUnsignedDecimalLiteral s then
        let '(i, f) := split_point s in
        RoundMV (digits_value 0 (i ++ f)) (String.length f)
      else nan
  end.

(** A field of the instance holds a Number or a string. *)
Inductive value :=
| Num (x : number)
| Str (s : string).

Definition ToNumberV (v : value) : number :=
  match v with
  | Num x => x
  | Str s => StringToNumber s
  end.

(** [!v] is false for every string but the empty one, ["0"] included. *)
Definition ToBooleanV (v : value) : bool :=
  match v with
  | Num x => ToBoolean (Some x)
  | Str s => negb (String.eqb s EmptyString)
  end.

(** [a < b] and [a <= b]: two strings are compared as strings, character by
    character; otherwise both sides are taken as Numbers. *)
Definition lessThan (a b : value) : bool :=
  match a, b with
  | Str s, Str t => String.ltb s t
  | _, _ => ToNumberV a <? ToNumberV b
  end.

Definition lessEq (a b : value) : bool :=
  match a, b with
  | Str s, Str t => String.leb s t
  | _, _ => ToNumberV a <=? ToNumberV b
  end.

Definition greaterEq (a b : value) : bool := lessEq b a.

(** The property key of the integer [k]: its decimal numeral. *)
Definition numeral (k : Z) : string := NilZero.string_of_uint (N.to_uint (Z.to_N k)).

(** A text of two or more characters that starts with the digit zero. *)
Definition leadingZero (s : string) : bool :=
  match s with
  | String c (String _ _) => Ascii.eqb c "0"
  | _ => false
  end.

(** ** The form: the class called with strings

    [handleCalculateBearingCapacity] passes the strings of the state to the
    constructor.  The same statements then run with the semantics
    JavaScript gives them on strings: [NTerzaghi[this.phi]] looks up the
    string itself among the keys ["0"], ..., ["41"]; [this.depth +
    this.width] concatenates; [<=], [<] and [>=] between two strings compare
    them as strings; [-], [*] and [/] take the Numbers.  The [else] branch
    of lines 104-105 stores the string [unitWeight], which line 151 then
    multiplies as a Number.  [get] reads the keys the table itself has; the
    properties every object inherits have names that are no digit strings
    and are left to [readFactors] below. *)

Module OnStrings.

Fixpoint get (t : list (Z * (number * number * number))) (phi : string)
  : option (number * number * number) :=
  match t with
  | [] => None
  | (k, row) :: t' => if String.eqb phi (numeral k) then Some row else get t' phi
  end.

Record TerzaghiBearingCapacity := {
  cohesion : string;
  phi : string;
  depth : string;
  unitWeight : string;
  width : string;
  shape : string;
  groundwaterDepth : value;
  FS : string;
  effectiveUnitWeight : value;
  effectiveStress : number;
  Nc : number;
  Nq : number;
  Ng : number;
  coef1 : number;
  coef2 : number;
  coef3 : number;
  equation : string;
  bearingCapacity : number;
  allowableCapacity : number;
  console : list string
}.

(** [new TerzaghiBearingCapacity(...)] on eight strings. *)
Definition constructor (cohesion phi depth unitWeight width shape groundwaterDepth FS : string)
  : completion TerzaghiBearingCapacity :=
  let gw :=
    if negb (ToBooleanV (Str groundwaterDepth))
    then Num (2 * StringToNumber (depth ++ width))
    else Str groundwaterDepth in
  let effectiveUnitWeight :=
    if lessEq gw (Str depth) then Num (StringToNumber unitWeight - unitWeightWater)
    else if lessThan (Str depth) gw && lessThan gw (Str (depth ++ width))
         then Num (StringToNumber unitWeight
                   - unitWeightWater
                     * (1 - (ToNumberV gw - StringToNumber depth) / StringToNumber width))
         else Str unitWeight in
  let effectiveStress :=
    if greaterEq gw (Str depth) then StringToNumber unitWeight * StringToNumber depth
    else
      let totalStress := StringToNumber unitWeight * StringToNumber depth in
      let porePressure :=
        (StringToNumber depth - StringToNumber groundwaterDepth) * unitWeightWater in
      totalStress - porePressure in
  match get NTerzaghi phi with
  | None => Throw TypeError
  | Some (Nc, Nq, Ng) =>
      let '(coef1, coef2, coef3, equation, out) := shapeCoefficients shape in
      let bearingCapacity :=
        Math_round ((coef1 * StringToNumber cohesion * Nc)
                    + (coef2 * effectiveStress * Nq)
                    + (coef3 * ToNumberV effectiveUnitWeight * StringToNumber width * Ng)) in
      let allowableCapacity := Math_round (bearingCapacity / StringToNumber FS) in
      Normal {| cohesion := cohesion; phi := phi; depth := depth;
                unitWeight := unitWeight; width := width; shape := shape;
                groundwaterDepth := gw; FS := FS;
                effectiveUnitWeight := effectiveUnitWeight;
                effectiveStress := effectiveStress;
                Nc := Nc; Nq := Nq; Ng := Ng;
                coef1 := coef1; coef2 := coef2; coef3 := coef3;
                equation := equation;
                bearingCapacity := bearingCapacity;
                allowableCapacity := allowableCapacity;
                console := out |}
  end.

End OnStrings.

(** [NTerzaghi[key]] for a string [key]: a row of the table, a property the
    table inherits from [Object.prototype], or [undefined]. *)
Inductive property :=
| Row (row : number * number * number)
| Inherited
| Undefined.

(** The property names of [Object.prototype]. *)
Definition ObjectPrototype : list string :=
  ["constructor"; "__defineGetter__"; "__defineSetter__"; "hasOwnProperty";
   "__lookupGetter__"; "__lookupSetter__"; "isPrototypeOf";
   "propertyIsEnumerable"; "toString"; "valueOf"; "__proto__";
   "toLocaleString"]%string.

Definition NTerzaghi_at (key : string) : property :=
  match OnStrings.get NTerzaghi key with
  | Some row => Row row
  | None => if existsb (String.eqb key) ObjectPrototype then Inherited else Undefined
  end.

(** Lines 117-119 on a string key: the three reads [NTerzaghi[key][i]].
    Element [i] of an inherited property, a function or the prototype
    object, is [undefined]; element [i] of [undefined] throws. *)
Definition readFactors (key : string) : completion (optnumber * optnumber * optnumber) :=
  match NTerzaghi_at key with
  | Row (Nc, Nq, Ng) => Normal (Some Nc, Some Nq, Some Ng)
  | Inherited => Normal (None, None, None)
  | Undefined => Throw TypeError
  end.

(** Seven texts that pass the validators of the form. *)
Definition formTexts (c ph uw d w gw fsv : string) : bool :=
  fullmatch floatPattern c
  && (fullmatch intPattern ph && (StringToNumber ph <? 42))
  && fullmatch floatPattern uw && fullmatch floatPattern d
  && fullmatch floatPattern w && fullmatch floatPattern gw
  && fullmatch floatPattern fsv.

(** ** The form: [BearingCapacityApp]

    The component keeps its state in one object.  A handler is a function
    from the state to the state it leaves once React has applied the
    updates it queued: [setState] merges the object its updater returns into
    the current state, key by key.  The object [this.state.error] is updated
    in place and shared by all updates of a handler, so the flags set by one
    validator are seen by the next.  The radio buttons are read from the
    document: [element] is the list of their [checked] and [value]
    properties.  The [calculation] string is left out, as in the class, and
    so is the clearing of the input boxes by [handleReset]. *)

Module BearingCapacityApp.

(** The object [this.state.error]: flags by name, in insertion order. *)
Definition flags := list (string * bool).

Fixpoint setFlag (e : flags) (k : string) (b : bool) : flags :=
  match e with
  | [] => [(k, b)]
  | (k', b') :: e' =>
      if String.eqb k' k then (k', b) :: e' else (k', b') :: setFlag e' k b
  end.

Fixpoint getFlag (e : flags) (k : string) : option bool :=
  match e with
  | [] => None
  | (k', b') :: e' => if String.eqb k' k then Some b' else getFlag e' k
  end.

(** [this.state].  The start state has a key [fs] and no key [FS]; [handleFS]
    adds [FS]. *)
Record State := {
  shape : string;
  cohesion : option string;
  phi : option string;
  unitWeight : option string;
  depth : option string;
  width : option string;
  groundwaterDepth : option string;
  fs : number;
  FS : option string;
  renderedFS : value;
  bearingCapacity : option number;
  allowableCapacity : option number;
  equation : option string;
  calculated : bool;
  error : flags
}.

Definition startError : flags :=
  [("cohesion", false); ("phi", false); ("unitWeight", false); ("depth", false);
   ("width", false); ("groundwaterDepth", false); ("fs", false);
   ("undefinedInput", false); ("cannotEvaluate", false)]%string.

Definition startState : State :=
  {| shape := "continuous"; cohesion := None; phi := None; unitWeight := None;
     depth := None; width := None; groundwaterDepth := None;
     fs := 3; FS := None; renderedFS := Num 3;
     bearingCapacity := None; allowableCapacity := None; equation := None;
     calculated := false; error := startError |}.

(** [{...state, error: e}] *)
Definition withError (st : State) (e : flags) : State :=
  {| shape := shape st; cohesion := cohesion st; phi := phi st;
     unitWeight := unitWeight st; depth := depth st; width := width st;
     groundwaterDepth := groundwaterDepth st; fs := fs st; FS := FS st;
     renderedFS := renderedFS st; bearingCapacity := bearingCapacity st;
     allowableCapacity := allowableCapacity st; equation := equation st;
     calculated := calculated st; error := e |}.

(** Lines 158-169: the loop over the buttons named [foundation-type]. *)
Fixpoint getRadioValue (element : list (bool * string)) : string :=
  match element with
  | [] => "continuous"%string
  | (checked, value) :: rest => if checked then value else getRadioValue rest
  end.

(** Lines 219-242 and 244-268. *)
Definition isValidFloat (string parameter : string) (st : State) : bool * State :=
  if (search floatPattern string >? -1)%Z
  then (true, withError st (setFlag (error st) parameter false))
  else (false, withError st (setFlag (error st) parameter true)).

Definition isValidInt (string parameter : string) (st : State) : bool * State :=
  if (search intPattern string >? -1)%Z && (StringToNumber string <? 42)
  then (true, withError st (setFlag (error st) parameter false))
  else (false, withError st (setFlag (error st) parameter true)).

(** [!!v] on a field of the state: [undefined] or a string. *)
Definition truthy (v : option string) : bool :=
  match v with
  | Some s => negb (String.eqb s EmptyString)
  | None => false
  end.

(** Lines 423-451. *)
Definition allFieldsAreDefined (st : State) : bool * State :=
  if negb (truthy (cohesion st)) || negb (truthy (phi st))
     || negb (truthy (unitWeight st)) || negb (truthy (depth st))
     || negb (truthy (width st)) || negb (truthy (groundwaterDepth st))
     || negb (truthy (FS st))
  then (false, withError st (setFlag (error st) "undefinedInput" true))
  else (true, withError st (setFlag (error st) "undefinedInput" false)).

(** [p && q] on two calls that update the state: [q] runs only if [p]
    returned true. *)
Definition andAlso (p q : State -> bool * State) : State -> bool * State :=
  fun st => let '(b, st') := p st in if b then q st' else (false, st').

(** The [else] branch of lines 411-419. *)
Definition cannotEvaluate (st : State) : State :=
  {| shape := shape st; cohesion := cohesion st; phi := phi st;
     unitWeight := unitWeight st; depth := depth st; width := width st;
     groundwaterDepth := groundwaterDepth st; fs := fs st; FS := FS st;
     renderedFS := renderedFS st; bearingCapacity := bearingCapacity st;
     allowableCapacity := allowableCapacity st; equation := equation st;
     calculated := false;
     error := setFlag (error st) "cannotEvaluate" true |}.

(** Lines 382-421.  A validator is called on a field only once
    [allFieldsAreDefined] has found all seven to be non-empty strings. *)
Definition handleCalculateBearingCapacity (element : list (bool * string)) (st : State)
  : completion State :=
  let shape := getRadioValue element in
  match cohesion st, phi st, unitWeight st, depth st, width st,
        groundwaterDepth st, FS st with
  | Some c, Some ph, Some uw, Some d, Some w, Some gw, Some fsv =>
      let '(ok, st1) :=
        andAlso allFieldsAreDefined
         (andAlso (isValidFloat c "cohesion")
          (andAlso (isValidInt ph "phi")
           (andAlso (isValidFloat uw "unitWeight")
            (andAlso (isValidFloat d "depth")
             (andAlso (isValidFloat w "width")
              (andAlso (isValidFloat gw "groundwaterDepth")
                       (isValidFloat fsv "FS"))))))) st in
      if ok then
        match OnStrings.constructor c ph d uw w shape gw fsv with
        | Throw e => Throw e
        | Normal result =>
            Normal
              {| shape := shape; cohesion := cohesion st1; phi := phi st1;
                 unitWeight := unitWeight st1; depth := depth st1;
                 width := width st1; groundwaterDepth := groundwaterDepth st1;
                 fs := fs st1; FS := FS st1;
                 renderedFS := Str fsv;
                 bearingCapacity := Some (OnStrings.bearingCapacity result);
                 allowableCapacity := Some (OnStrings.allowableCapacity result);
                 equation := Some (OnStrings.equation result);
                 calculated := true;
                 error := setFlag (error st1) "cannotEvaluate" false |}
        end
      else Normal (cannotEvaluate st1)
  | _, _, _, _, _, _, _ =>
      let '(_, st1) := allFieldsAreDefined st in
      Normal (cannotEvaluate st1)
  end.

(** [{...state, [name]: value}] *)
Definition setField (name : string) (value : string) (st : State) : State :=
  {| shape := shape st;
     cohesion := if String.eqb name "cohesion" then Some value else cohesion st;
     phi := if String.eqb name "phi" then Some value else phi st;
     unitWeight := if String.eqb name "unitWeight" then Some value else unitWeight st;
     depth := if String.eqb name "depth" then Some value else depth st;
     width := if String.eqb name "width" then Some value else width st;
     groundwaterDepth :=
       if String.eqb name "groundwaterDepth" then Some value else groundwaterDepth st;
     fs := fs st;
     FS := if String.eqb name "FS" then Some value else FS st;
     renderedFS := renderedFS st; bearingCapacity := bearingCapacity st;
     allowableCapacity := allowableCapacity st; equation := equation st;
     calculated := calculated st; error := error st |}.

(** Lines 270-380: the change handlers store [event.target.value] and then
    validate it. *)
Definition handleCohesion (value : string) (st : State) : State :=
  snd (isValidFloat value "cohesion" (setField "cohesion" value st)).

Definition handlePhi (value : string) (st : State) : State :=
  snd (isValidInt value "phi" (setField "phi" value st)).

Definition handleUnitWeight (value : string) (st : State) : State :=
  snd (isValidFloat value "unitWeight" (setField "unitWeight" value st)).

Definition handleDepth (value : string) (st : State) : State :=
  snd (isValidFloat value "depth" (setField "depth" value st)).

Definition handleWidth (value : string) (st : State) : State :=
  snd (isValidFloat value "width" (setField "width" value st)).

Definition handleGroundwaterDepth (value : string) (st : State) : State :=
  snd (isValidFloat value "groundwaterDepth" (setField "groundwaterDepth" value st)).

Definition handleFS (value : string) (st : State) : State :=
  snd (isValidFloat value "FS" (setField "FS" value st)).

(** Lines 453-486.  The object returned by the updater has no key [FS], so
    the merge keeps the [FS] of the state. *)
Definition handleReset (st : State) : State :=
  {| shape := "continuous"; cohesion := None; phi := None; unitWeight := None;
     depth := None; width := None; groundwaterDepth := None;
     fs := 3; FS := FS st; renderedFS := Num 3;
     bearingCapacity := None; allowableCapacity := None; equation := None;
     calculated := false; error := startError |}.

Definition handleEnterKey (key : string) (element : list (bool * string)) (st : State)
  : completion State :=
  if String.eqb key "Enter" then handleCalculateBearingCapacity element st
  else Normal st.

(** All seven fields are strings and pass their validators. *)
Definition inputsValid (st : State) : bool :=
  match cohesion st, phi st, unitWeight st, depth st, width st,
        groundwaterDepth st, FS st with
  | Some c, Some ph, Some uw, Some d, Some w, Some gw, Some fsv =>
      formTexts c ph uw d w gw fsv
  | _, _, _, _, _, _, _ => false
  end.

(** The three radio buttons that [render] puts in the form (lines 499-504). *)
Definition formRadios (continuous square circular : bool) : list (bool * string) :=
  [(continuous, "continuous"); (square, "square"); (circular, "circular")]%string.

(** The state in which the seven texts have been typed. *)
Definition typed (c ph uw d w gw fsv : string) (st : State) : State :=
  handleFS fsv (handleGroundwaterDepth gw (handleWidth w (handleDepth d
    (handleUnitWeight uw (handlePhi ph (handleCohesion c st)))))).

(** A validator returns a fixed verdict and changes only the error flags. *)
Definition flagsOnly (p : State -> bool * State) (b : bool) : Prop :=
  forall st, exists e, p st = (b, withError st e).

End BearingCapacityApp.

(** ** Evaluation checks *)

Example Math_round_half_up :
  Math_round 2.5 = 3 /\ Math_round (-2.5) = -2 /\ Math_round 2.4 = 2 /\
  Math_round (-2.6) = -3 /\ Math_round 0.5 = 1 /\ Math_round 1.5 = 2 /\
  Math_round (-1.5) = -1 /\ Math_round 0.49999999999999994 = 0 /\
  Math_round 12924 = 12924 /\ Math_round 4308.4 = 4308 /\
  Math_round 4503599627370495.5 = 4503599627370496 /\
  Math_round 4503599627370497 = 4503599627370497 /\
  Math_round 1e300 = 1e300.
Proof. repeat split; vm_compute; reflexivity. Qed.

Example Math_round_special :
  Math_round nan = nan /\ Math_round infinity = infinity /\
  Math_round neg_infinity = neg_infinity /\
  Leibniz.eqb (Math_round (-0.2)) (-0) = true /\
  Leibniz.eqb (Math_round (-0.5)) (-0) = true /\
  Leibniz.eqb (Math_round (-0)) (-0) = true /\
  Leibniz.eqb (Math_round 0.2) 0 = true /\
  Leibniz.eqb (Math_round 5e-324) 0 = true.
Proof. repeat split; vm_compute; reflexivity. Qed.

Example ToBoolean_falsy :
  ToBoolean None = false /\ ToBoolean (Some 0) = false /\
  ToBoolean (Some (-0)) = false /\ ToBoolean (Some nan) = false /\
  ToBoolean (Some 14) = true.
Proof. repeat split; vm_compute; reflexivity. Qed.

(** ** Numbers: equality and division by zero *)

Lemma Prim2SF_zero_inv (x : number) (s : bool) :
  Prim2SF x = S754_zero s -> x = 0 \/ x = -0.
Proof.
  intros E. rewrite <- (SF2Prim_Prim2SF x), E.
  destruct s; [right | left]; reflexivity.
Qed.

Lemma Prim2SF_infinity_inv (x : number) (s : bool) :
  Prim2SF x = S754_infinity s -> x = if s then neg_infinity else infinity.
Proof.
  intros E. rewrite <- (SF2Prim_Prim2SF x), E. destruct s; reflexivity.
Qed.

Lemma Prim2SF_nan_inv (x : number) : Prim2SF x = S754_nan -> x = nan.
Proof. intros E. rewrite <- (SF2Prim_Prim2SF x), E. reflexivity. Qed.

(** [==] on Numbers is identity, except that the two zeros are equal. *)
Lemma eqb_true_cases (x y : number) :
  (x =? y) = true -> x = y \/ ((x = 0 \/ x = -0) /\ (y = 0 \/ y = -0)).
Proof.
  rewrite eqb_spec. unfold SFeqb, SFcompare.
  destruct (Prim2SF x) as [sx|sx| |sx mx ex] eqn:Ex;
    destruct (Prim2SF y) as [sy|sy| |sy my ey] eqn:Ey; try discriminate;
    try (destruct sx; discriminate); try (destruct sy; discriminate).
  - intros _. right. split; eapply Prim2SF_zero_inv; eassumption.
  - destruct sx, sy; try discriminate; intros _; left;
      apply Prim2SF_inj; congruence.
  - intros H. left. apply Prim2SF_inj. rewrite Ex, Ey.
    destruct sx, sy; try discriminate;
      destruct (Z.compare_spec ex ey) as [He|He|He]; try discriminate;
      destruct (Pos.compare_cont Eq mx my) eqn:Hm; try discriminate;
      apply Pos.compare_eq in Hm; congruence.
Qed.

(** Dividing by a zero gives an infinity or NaN, whatever the dividend. *)
Lemma div_by_zero (x y : number) :
  (y =? 0) = true ->
  x / y = infinity \/ x / y = neg_infinity \/ x / y = nan.
Proof.
  rewrite eqb_spec. change (Prim2SF 0) with (S754_zero false).
  destruct (Prim2SF y) as [sy|sy| |sy my ey] eqn:Ey;
    unfold SFeqb, SFcompare; try discriminate; try (destruct sy; discriminate).
  intros _. pose proof (div_spec x y) as Hd. rewrite Ey in Hd.
  unfold SF64div, SFdiv in Hd.
  destruct (Prim2SF x) as [sx|sx| |sx mx ex].
  - right; right. now apply Prim2SF_nan_inv.
  - apply Prim2SF_infinity_inv in Hd. destruct (xorb sx sy); auto.
  - right; right. now apply Prim2SF_nan_inv.
  - apply Prim2SF_infinity_inv in Hd. destruct (xorb sx sy); auto.
Qed.

Lemma Math_round_not_finite (x : number) :
  x = infinity \/ x = neg_infinity \/ x = nan -> Math_round x = x.
Proof. intros [-> | [-> | ->]]; reflexivity. Qed.

(** ** Binary64 rounding: sums and doubles of positive numbers

    [D + B] and [2 * x] are specified by [SFadd] and [SFmul], which round a
    mantissa with [binary_round_aux].  What the constructor's default for
    the groundwater depth needs is that rounding never moves a sum below a
    summand, nor a double below the number doubled. *)

Module Binary64.

Local Open Scope Z_scope.

Local Abbreviation fexp64 := (SpecFloat.fexp prec emax).

(** *** The number of bits of a mantissa *)

Lemma digits2_size p : digits2_pos p = Pos.size p.
Proof. induction p; cbn; congruence. Qed.

Lemma digits2_bounds p :
  2 ^ (Zpos (digits2_pos p) - 1) <= Zpos p < 2 ^ Zpos (digits2_pos p).
Proof.
  rewrite digits2_size.
  pose proof (Pos.size_gt p) as Hgt. pose proof (Pos.size_le p) as Hle.
  split.
  - assert (2 ^ Zpos (Pos.size p) <= 2 * Zpos p) by (rewrite <- Pos2Z.inj_pow; lia).
    replace (Zpos (Pos.size p)) with (Z.succ (Zpos (Pos.size p) - 1)) in H by lia.
    rewrite Z.pow_succ_r in H by lia. lia.
  - rewrite <- Pos2Z.inj_pow. lia.
Qed.

Lemma digits2_unique p d :
  2 ^ (d - 1) <= Zpos p < 2 ^ d -> Zpos (digits2_pos p) = d.
Proof.
  intros [Hl Hu]. pose proof (digits2_bounds p) as [Hl' Hu'].
  assert (0 < d).
  { destruct (Z_lt_le_dec 0 d); [assumption|].
    assert (2 ^ d <= 2 ^ 0) by (destruct d; [lia| lia | rewrite Z.pow_neg_r; lia]).
    simpl in *. lia. }
  destruct (Z_lt_le_dec (Zpos (digits2_pos p)) d).
  - assert (2 ^ Zpos (digits2_pos p) <= 2 ^ (d - 1)) by (apply Z.pow_le_mono_r; lia). lia.
  - destruct (Z_lt_le_dec d (Zpos (digits2_pos p))); [|lia].
    assert (2 ^ d <= 2 ^ (Zpos (digits2_pos p) - 1)) by (apply Z.pow_le_mono_r; lia). lia.
Qed.

Lemma digits2_mono p q :
  Zpos p <= Zpos q -> Zpos (digits2_pos p) <= Zpos (digits2_pos q).
Proof.
  intros H. pose proof (digits2_bounds p) as [Hl _]. pose proof (digits2_bounds q) as [_ Hu].
  destruct (Z_lt_le_dec (Zpos (digits2_pos q)) (Zpos (digits2_pos p))); [|assumption].
  assert (2 ^ Zpos (digits2_pos q) <= 2 ^ (Zpos (digits2_pos p) - 1)) by (apply Z.pow_le_mono_r; lia).
  lia.
Qed.

Lemma fexp64_mono a b : a <= b -> fexp64 a <= fexp64 b.
Proof. unfold SpecFloat.fexp, SpecFloat.emin, prec, emax. lia. Qed.

Lemma fexp64_ge_emin a : -1074 <= fexp64 a.
Proof. unfold SpecFloat.fexp, SpecFloat.emin, prec, emax. lia. Qed.

(** *** Shifting a mantissa right *)

Lemma shr_1_m mrs :
  0 <= shr_m mrs ->
  shr_m (shr_1 mrs) = shr_m mrs / 2 /\ 0 <= shr_m (shr_1 mrs).
Proof.
  destruct mrs as [m r s]. cbn [shr_m shr_1].
  destruct m as [|[p|p|]|p]; cbn [shr_m]; intros H.
  - now split.
  - split; [|lia]. apply Z.div_unique with (r := 1); lia.
  - split; [|lia]. apply Z.div_unique with (r := 0); lia.
  - now split.
  - lia.
Qed.

Lemma pow2_xO p : 2 ^ Zpos p~0 = 2 ^ Zpos p * 2 ^ Zpos p.
Proof. rewrite <- Z.pow_add_r by lia. f_equal. lia. Qed.

Lemma pow2_xI p : 2 ^ Zpos p~1 = 2 * (2 ^ Zpos p * 2 ^ Zpos p).
Proof.
  rewrite <- Z.pow_add_r, <- Z.pow_succ_r by lia. f_equal. lia.
Qed.

Lemma iter_shr_1_m p : forall mrs, 0 <= shr_m mrs ->
  shr_m (iter_pos shr_1 p mrs) = shr_m mrs / 2 ^ Zpos p /\ 0 <= shr_m (iter_pos shr_1 p mrs).
Proof.
  induction p as [p IH|p IH|]; intros mrs H; cbn [iter_pos].
  - destruct (shr_1_m mrs H) as [E1 H1].
    destruct (IH _ H1) as [E2 H2]. destruct (IH _ H2) as [E3 H3].
    split; [|assumption]. rewrite E3, E2, E1, pow2_xI.
    rewrite !Z.div_div by lia. reflexivity.
  - destruct (IH _ H) as [E2 H2]. destruct (IH _ H2) as [E3 H3].
    split; [|assumption]. rewrite E3, E2, pow2_xO.
    rewrite !Z.div_div by lia. reflexivity.
  - destruct (shr_1_m mrs H) as [E1 H1]. split; [|assumption].
    rewrite E1. reflexivity.
Qed.

(** The mantissa and exponent after [shr_fexp]. *)
Lemma shr_fexp_spec m e l :
  0 <= m ->
  let e' := Z.max e (fexp64 (Zdigits2 m + e)) in
  shr_m (fst (shr_fexp prec emax m e l)) = m / 2 ^ (e' - e) /\
  snd (shr_fexp prec emax m e l) = e'.
Proof.
  intros Hm e'. unfold shr_fexp, shr.
  assert (Hr : shr_m (shr_record_of_loc m l) = m) by (destruct l as [|[]]; reflexivity).
  destruct (fexp64 (Zdigits2 m + e) - e) as [|n|n] eqn:En; cbn [fst snd].
  - replace e' with e by lia. rewrite Z.sub_diag, Z.pow_0_r, Z.div_1_r. now split.
  - replace e' with (e + Zpos n) by lia. split; [|reflexivity].
    destruct (iter_shr_1_m n (shr_record_of_loc m l)) as [E _]; [rewrite Hr; exact Hm|].
    rewrite E, Hr. f_equal. f_equal. lia.
  - replace e' with e by lia. rewrite Z.sub_diag, Z.pow_0_r, Z.div_1_r. now split.
Qed.

Lemma round_nearest_even_bounds m l :
  m <= round_nearest_even m l <= m + 1.
Proof.
  unfold round_nearest_even. destruct l as [|[]]; try lia.
  destruct (Z.even m); lia.
Qed.

(** A positive mantissa that survives the first shift is rounded to a
    positive float (or overflows), at an exponent no smaller than the one
    of that shift and, at that very exponent, with a mantissa no smaller. *)
Lemma binary_round_aux_lower p ex lx :
  let e1 := Z.max ex (fexp64 (Zpos (digits2_pos p) + ex)) in
  let m1 := Zpos p / 2 ^ (e1 - ex) in
  0 < m1 ->
  binary_round_aux prec emax false (Zpos p) ex lx = S754_infinity false \/
  exists m3 e3,
    binary_round_aux prec emax false (Zpos p) ex lx = S754_finite false m3 e3 /\
    e1 <= e3 /\ (e3 = e1 -> m1 <= Zpos m3).
Proof.
  intros e1 m1 Hm1. unfold binary_round_aux.
  destruct (shr_fexp_spec (Zpos p) ex lx) as [Em Ee]; [lia|].
  cbn [Zdigits2] in Em, Ee. fold e1 in Em, Ee. fold m1 in Em.
  destruct (shr_fexp prec emax (Zpos p) ex lx) as [mrs' e'].
  cbn [fst snd] in Em, Ee. subst e'.
  set (m2 := round_nearest_even (shr_m mrs') (loc_of_shr_record mrs')).
  assert (Hm2 : m1 <= m2 <= m1 + 1)
    by (unfold m2; rewrite <- Em; apply round_nearest_even_bounds).
  destruct (shr_fexp_spec m2 e1 loc_Exact) as [Em' Ee']; [lia|].
  destruct (shr_fexp prec emax m2 e1 loc_Exact) as [mrs'' e''].
  cbn [fst snd] in Em', Ee'. rewrite <- Ee' in Em'.
  assert (He1 : -1074 <= e1) by (pose proof (fexp64_ge_emin (Zpos (digits2_pos p) + ex)); lia).
  assert (Hpos : 0 < shr_m mrs'' /\ (e'' = e1 -> shr_m mrs'' = m2)).
  { rewrite Em'. destruct (Z_le_gt_dec e'' e1) as [Hle|Hgt].
    - replace (e'' - e1) with 0 by lia. rewrite Z.pow_0_r, Z.div_1_r. split; [lia|reflexivity].
    - split; [|lia]. destruct m2 as [|q|q]; try lia.
      cbn [Zdigits2] in Ee'.
      assert (Hd : e'' - e1 = Zpos (digits2_pos q) - 53)
        by (revert Ee' Hgt He1; unfold SpecFloat.fexp, SpecFloat.emin, prec, emax; lia).
      rewrite Hd. pose proof (digits2_bounds q) as [Hl _].
      assert (0 < Zpos (digits2_pos q) - 53) by lia.
      apply Z.lt_le_trans with (2 ^ 52); [reflexivity|].
      apply Z.div_le_lower_bound; [apply Z.pow_pos_nonneg; lia|].
      rewrite Z.mul_comm, <- Z.pow_add_r by lia.
      replace (52 + (Zpos (digits2_pos q) - 53)) with (Zpos (digits2_pos q) - 1) by lia.
      exact Hl. }
  destruct Hpos as [Hpos Heq].
  destruct (shr_m mrs'') as [|m3|m3]; try lia.
  destruct (e'' <=? emax - prec); [right | left; reflexivity].
  exists m3, e''. split; [reflexivity|]. split; [lia|].
  intros He. rewrite (Heq He). lia.
Qed.

(** *** The order of [SFcompare] *)

Lemma SFcompare_antisym x y :
  SFcompare y x = option_map CompOpp (SFcompare x y).
Proof.
  destruct x as [sx|sx| |sx mx ex], y as [sy|sy| |sy my ey];
    cbn [SFcompare option_map]; try reflexivity;
    try (destruct sx; reflexivity); try (destruct sy; reflexivity);
    try (destruct sx, sy; reflexivity).
  destruct sx, sy; try reflexivity; compare_cases; cbn [CompOpp];
    try reflexivity; subst; lia.
Qed.

Lemma SFltb_SFleb_false x y : SFltb x y = true -> SFleb y x = false.
Proof.
  unfold SFltb, SFleb. rewrite (SFcompare_antisym x y).
  destruct (SFcompare x y) as [[]|]; cbn; congruence.
Qed.

Lemma SFltb_SFltb_false x y : SFltb x y = true -> SFltb y x = false.
Proof.
  unfold SFltb. rewrite (SFcompare_antisym x y).
  destruct (SFcompare x y) as [[]|]; cbn; congruence.
Qed.

Lemma SFleb_SFltb_false x y : SFleb x y = true -> SFltb y x = false.
Proof.
  unfold SFltb, SFleb. rewrite (SFcompare_antisym x y).
  destruct (SFcompare x y) as [[]|]; cbn; congruence.
Qed.

Lemma SFltb_SFleb x y : SFltb x y = true -> SFleb x y = true.
Proof.
  unfold SFltb, SFleb. destruct (SFcompare x y) as [[]|]; congruence.
Qed.

Lemma SFleb_SFltb_trans x y z :
  SFleb x y = true -> SFltb y z = true -> SFltb x z = true.
Proof.
  unfold SFleb, SFltb.
  destruct x as [sx|sx| |sx mx ex], y as [sy|sy| |sy my ey], z as [sz|sz| |sz mz ez];
    cbn [SFcompare]; try discriminate; try reflexivity;
    try (destruct sx; try discriminate; try reflexivity);
    try (destruct sy; try discriminate; try reflexivity);
    try (destruct sz; try discriminate; try reflexivity);
    compare_cases; try discriminate; try reflexivity; intros _ _; exfalso; lia.
Qed.

(** *** Valid finite floats *)

Lemma bounded_inv m e :
  bounded prec emax m e = true ->
  fexp64 (Zpos (digits2_pos m) + e) = e /\ e <= 971.
Proof.
  unfold bounded, canonical_mantissa. rewrite andb_true_iff.
  intros [H1 H2]. apply Z.eqb_eq in H1. apply Z.leb_le in H2.
  split; [exact H1 | exact H2].
Qed.

Lemma digits2_mul_pow2 m k :
  0 <= k -> forall p, Zpos p = Zpos m * 2 ^ k ->
  Zpos (digits2_pos p) = Zpos (digits2_pos m) + k.
Proof.
  intros Hk p Hp. apply digits2_unique. rewrite Hp.
  pose proof (digits2_bounds m) as [Hl Hu].
  assert (0 < 2 ^ k) by (apply Z.pow_pos_nonneg; lia).
  replace (Zpos (digits2_pos m) + k - 1) with (Zpos (digits2_pos m) - 1 + k) by lia.
  rewrite !Z.pow_add_r by lia. nia.
Qed.

Lemma shl_align_fst m e e' :
  e' <= e -> Zpos (fst (shl_align m e e')) = Zpos m * 2 ^ (e - e').
Proof.
  intros H. unfold shl_align.
  destruct (e' - e) as [|d|d] eqn:E; cbn [fst].
  - replace (e - e') with 0 by lia. lia.
  - lia.
  - replace (e - e') with (Zpos d) by lia.
    change (Pos.iter xO m d) with (shift_pos d m).
    rewrite shift_pos_correct.
    rewrite Z.mul_comm. reflexivity.
Qed.

(** The sum of two positive floats is a positive float, or +Infinity, that
    is not below the first summand: rounding is monotone. *)
Lemma SFadd_pos_ge mD eD mB eB :
  bounded prec emax mD eD = true -> bounded prec emax mB eB = true ->
  SFleb (S754_finite false mD eD)
        (SF64add (S754_finite false mD eD) (S754_finite false mB eB)) = true.
Proof.
  intros HD HB.
  apply bounded_inv in HD, HB. destruct HD as [HD HD'], HB as [HB HB'].
  unfold SF64add, SFadd. cbn [cond_Zopp].
  set (ez := Z.min eD eB).
  pose proof (shl_align_fst mD eD ez ltac:(lia)) as EaD.
  pose proof (shl_align_fst mB eB ez ltac:(lia)) as EaB.
  set (aD := fst (shl_align mD eD ez)) in *.
  set (aB := fst (shl_align mB eB ez)) in *.
  change (Zpos aD + Zpos aB) with (Zpos (aD + aB)).
  cbn [binary_normalize]. unfold binary_round.
  set (M := (aD + aB)%positive).
  assert (HM : Zpos aD <= Zpos M) by (unfold M; lia).
  pose proof (digits2_mul_pow2 mD (eD - ez) ltac:(lia) aD EaD) as HdD.
  pose proof (digits2_mono aD M HM) as Hmono.
  set (E := fexp64 (Zpos (digits2_pos M) + ez)).
  assert (HE : eD <= E).
  { rewrite <- HD. apply fexp64_mono. lia. }
  assert (Hez : -1074 <= ez).
  { pose proof (fexp64_ge_emin (Zpos (digits2_pos mD) + eD)).
    pose proof (fexp64_ge_emin (Zpos (digits2_pos mB) + eB)). lia. }
  assert (Hal : shl_align M ez E = (M, ez)).
  { unfold shl_align. destruct (E - ez) eqn:Ed; try reflexivity. lia. }
  rewrite Hal.
  pose proof (binary_round_aux_lower M ez loc_Exact) as Hr.
  cbv zeta in Hr. fold E in Hr.
  replace (Z.max ez E) with E in Hr by lia.
  pose proof (digits2_bounds M) as [HMl _].
  assert (Hk : 0 <= E - ez <= Zpos (digits2_pos M) - 1).
  { split; [lia|]. subst E. unfold SpecFloat.fexp, SpecFloat.emin, prec, emax. lia. }
  assert (Hp : 0 < 2 ^ (E - ez)) by (apply Z.pow_pos_nonneg; lia).
  assert (Hm1 : 0 < Zpos M / 2 ^ (E - ez)).
  { apply Z.lt_le_trans with 1; [lia|].
    apply Z.div_le_lower_bound; [exact Hp|].
    apply Z.le_trans with (2 ^ (Zpos (digits2_pos M) - 1)); [|exact HMl].
    rewrite Z.mul_1_r. apply Z.pow_le_mono_r; lia. }
  destruct (Hr Hm1) as [-> | (m3 & e3 & -> & He3 & Hm3)]; [reflexivity|].
  unfold SFleb. cbn [SFcompare].
  destruct (Z.compare_spec eD e3) as [Heq|Hlt|Hgt]; [|reflexivity|lia].
  assert (E = eD) by lia.
  assert (Zpos mD <= Zpos m3).
  { apply Z.le_trans with (Zpos M / 2 ^ (E - ez)); [|apply Hm3; lia].
    apply Z.div_le_lower_bound; [exact Hp|].
    replace (E - ez) with (eD - ez) by lia. lia. }
  change (Pos.compare_cont Eq mD m3) with (Pos.compare mD m3).
  destruct (Pos.compare_spec mD m3); try reflexivity. lia.
Qed.

(** Twice a positive float is a larger float, or +Infinity. *)
Lemma SFmul_two_gt m e :
  bounded prec emax m e = true ->
  SFltb (S754_finite false m e)
        (SF64mul (S754_finite false 4503599627370496 (-51)) (S754_finite false m e)) = true.
Proof.
  intros Hb. apply bounded_inv in Hb. destruct Hb as [Hf He].
  unfold SF64mul, SFmul. cbn [xorb].
  set (p := (4503599627370496 * m)%positive).
  assert (Hp : Zpos p = Zpos m * 2 ^ 52) by (unfold p; lia).
  pose proof (digits2_mul_pow2 m 52 ltac:(lia) p Hp) as Hd.
  pose proof (binary_round_aux_lower p (-51 + e) loc_Exact) as Hr.
  cbv zeta in Hr. rewrite Hd in Hr.
  set (e1 := Z.max (-51 + e) (fexp64 (Zpos (digits2_pos m) + 52 + (-51 + e)))) in Hr.
  assert (He1 : e1 = e \/ e1 = e + 1).
  { subst e1. revert Hf. unfold SpecFloat.fexp, SpecFloat.emin, prec, emax. lia. }
  assert (Hm1 : e1 = e -> Zpos p / 2 ^ (e1 - (-51 + e)) = 2 * Zpos m).
  { intros ->. replace (e - (-51 + e)) with 51 by lia.
    rewrite Hp. replace (Zpos m * 2 ^ 52) with (2 * Zpos m * 2 ^ 51) by lia.
    apply Z.div_mul. lia. }
  assert (Hm1' : e1 = e + 1 -> Zpos p / 2 ^ (e1 - (-51 + e)) = Zpos m).
  { intros ->. replace (e + 1 - (-51 + e)) with 52 by lia.
    rewrite Hp. apply Z.div_mul. lia. }
  assert (Hpos : 0 < Zpos p / 2 ^ (e1 - (-51 + e))).
  { destruct He1 as [H|H]; [rewrite (Hm1 H) | rewrite (Hm1' H)]; lia. }
  destruct (Hr Hpos) as [-> | (m3 & e3 & -> & He3 & Hm3)]; [reflexivity|].
  unfold SFltb. cbn [SFcompare].
  destruct (Z.compare_spec e e3) as [Heq|Hlt|Hgt]; [|reflexivity|lia].
  assert (e1 = e) by lia.
  assert (2 * Zpos m <= Zpos m3) by (rewrite <- Hm1 by assumption; apply Hm3; lia).
  change (Pos.compare_cont Eq m m3) with (Pos.compare m m3).
  destruct (Pos.compare_spec m m3); try reflexivity; lia.
Qed.

End Binary64.

(** ** Comparisons of Numbers *)

Lemma ltb_leb_false (x y : number) : (x <? y) = true -> (y <=? x) = false.
Proof. rewrite ltb_spec, leb_spec. apply Binary64.SFltb_SFleb_false. Qed.

Lemma leb_ltb_false (x y : number) : (x <=? y) = true -> (y <? x) = false.
Proof. rewrite ltb_spec, leb_spec. apply Binary64.SFleb_SFltb_false. Qed.

Lemma ltb_ltb_false (x y : number) : (x <? y) = true -> (y <? x) = false.
Proof. rewrite !ltb_spec. apply Binary64.SFltb_SFltb_false. Qed.

Lemma ltb_leb (x y : number) : (x <? y) = true -> (x <=? y) = true.
Proof. rewrite ltb_spec, leb_spec. apply Binary64.SFltb_SFleb. Qed.

Lemma leb_ltb_trans (x y z : number) :
  (x <=? y) = true -> (y <? z) = true -> (x <? z) = true.
Proof. rewrite !ltb_spec, leb_spec. apply Binary64.SFleb_SFltb_trans. Qed.

(** A finite Number that is [>= 0] is a zero or a positive float. *)
Lemma nonneg_finite_cases (D : number) :
  (0 <=? D) = true -> (D <? infinity) = true ->
  (exists s, Prim2SF D = S754_zero s) \/
  (exists m e, Prim2SF D = S754_finite false m e /\ bounded prec emax m e = true).
Proof.
  rewrite leb_spec, ltb_spec.
  change (Prim2SF 0) with (S754_zero false).
  change (Prim2SF infinity) with (S754_infinity false).
  pose proof (Prim2SF_valid D) as Hv.
  destruct (Prim2SF D) as [s|s| |s m e]; unfold SFleb, SFltb; cbn [SFcompare].
  - intros _ _. left. now exists s.
  - destruct s; discriminate.
  - discriminate.
  - destruct s; [discriminate|]. intros _ _. right. now exists m, e.
Qed.

(** A Number that is [> 0] is a positive float or +Infinity. *)
Lemma positive_cases (B : number) :
  (0 <? B) = true ->
  Prim2SF B = S754_infinity false \/
  (exists m e, Prim2SF B = S754_finite false m e /\ bounded prec emax m e = true).
Proof.
  rewrite ltb_spec. change (Prim2SF 0) with (S754_zero false).
  pose proof (Prim2SF_valid B) as Hv.
  destruct (Prim2SF B) as [s|s| |s m e]; unfold SFltb; cbn [SFcompare].
  - discriminate.
  - destruct s; [discriminate|]. intros _. now left.
  - discriminate.
  - destruct s; [discriminate|]. intros _. right. now exists m, e.
Qed.

(** [D + B] is not below [D], and is positive, for [D >= 0] finite and [B > 0]. *)
Lemma add_nonneg_pos (D B : number) :
  (0 <=? D) = true -> (D <? infinity) = true -> (0 <? B) = true ->
  (D <=? D + B) = true /\ (0 <? D + B) = true.
Proof.
  intros HD HDf HB.
  destruct (nonneg_finite_cases D HD HDf) as [[s ED] | (mD & eD & ED & VD)];
    destruct (positive_cases B HB) as [EB | (mB & eB & EB & VB)];
    rewrite leb_spec, ltb_spec, add_spec, ED, EB;
    change (Prim2SF 0) with (S754_zero false).
  - split; reflexivity.
  - split; reflexivity.
  - split; reflexivity.
  - pose proof (Binary64.SFadd_pos_ge mD eD mB eB VD VB) as Hle.
    split; [exact Hle|]. revert Hle.
    destruct (SF64add (S754_finite false mD eD) (S754_finite false mB eB)) as [s|s| |s m e];
      unfold SFleb, SFltb; cbn [SFcompare]; try discriminate;
      destruct s; try discriminate; reflexivity.
Qed.

(** Twice a positive Number is larger, unless the Number is +Infinity. *)
Lemma double_pos (x : number) :
  (0 <? x) = true ->
  (x <? 2 * x) = true \/
  (Prim2SF x = S754_infinity false /\ Prim2SF (2 * x) = S754_infinity false).
Proof.
  intros Hx. destruct (positive_cases x Hx) as [Ex | (m & e & Ex & Vx)].
  - right. split; [exact Ex|]. rewrite mul_spec, Ex. reflexivity.
  - left. rewrite ltb_spec, mul_spec, Ex.
    change (Prim2SF 2) with (S754_finite false 4503599627370496 (-51)).
    now apply Binary64.SFmul_two_gt.
Qed.

(** The default [2 * (D + B)] lies beyond the zone of influence [D + B]
    and below the foundation level [D]. *)
Lemma default_beyond_zone (D B : number) :
  (0 <=? D) = true -> (D <? infinity) = true -> (0 <? B) = true ->
  (2 * (D + B) <=? D) = false /\ (2 * (D + B) <? D + B) = false /\
  (D <=? 2 * (D + B)) = true /\ (D + B <=? 2 * (D + B)) = true.
Proof.
  intros HD HDf HB.
  destruct (add_nonneg_pos D B HD HDf HB) as [Hle Hpos].
  destruct (double_pos (D + B) Hpos) as [Hlt | [Es Eg]].
  - pose proof (leb_ltb_trans _ _ _ Hle Hlt) as HDg.
    repeat split.
    + now apply ltb_leb_false.
    + now apply ltb_ltb_false.
    + now apply ltb_leb.
    + now apply ltb_leb.
  - rewrite ltb_spec, !leb_spec, Es, Eg.
    destruct (nonneg_finite_cases D HD HDf) as [[s ED] | (mD & eD & ED & VD)];
      rewrite ED; repeat split; reflexivity.
Qed.

(** ** The factor table *)

Lemma integer_0_41_spec (ph : number) :
  integer_0_41 ph = true <->
  exists k : Z, (0 <= k <= 41)%Z /\ (ph =? of_Z k) = true.
Proof.
  unfold integer_0_41. rewrite existsb_exists. split.
  - intros (n & Hn & H). apply in_seq in Hn. exists (Z.of_nat n). split; [lia | exact H].
  - intros (k & Hk & H). exists (Z.to_nat k). split.
    + apply in_seq. lia.
    + rewrite Z2Nat.id by lia. exact H.
Qed.

Lemma get_None t ph :
  (forall k, In k (map fst t) -> (ph =? of_Z k) = false) -> get t ph = None.
Proof.
  induction t as [|[k row] t IH]; intros H; cbn [get]; [reflexivity|].
  rewrite (H k) by (left; reflexivity).
  apply IH. intros j Hj. apply H. right. exact Hj.
Qed.

Lemma keys_range k : In k (map fst NTerzaghi) -> (0 <= k <= 41)%Z.
Proof.
  intros H.
  assert (Hb : forallb (fun j => (0 <=? j)%Z && (j <=? 41)%Z) (map fst NTerzaghi) = true)
    by (vm_compute; reflexivity).
  rewrite forallb_forall in Hb. specialize (Hb k H). lia.
Qed.

Lemma range_cases (P : Z -> Prop) :
  (forall n : nat, (n <= 41)%nat -> P (Z.of_nat n)) ->
  forall k, (0 <= k <= 41)%Z -> P k.
Proof.
  intros H k Hk. rewrite <- (Z2Nat.id k) by lia. apply H. lia.
Qed.

Lemma get_of_Z k :
  (0 <= k <= 41)%Z -> get NTerzaghi (of_Z k) = entry k /\ entry k <> None.
Proof.
  intros Hk. pattern k. apply range_cases; [clear k Hk | exact Hk]. intros n Hn.
  do 42 (destruct n as [|n]; [split; [vm_compute; reflexivity | discriminate]|]).
  lia.
Qed.

Lemma of_Z_zero k :
  (0 <= k <= 41)%Z -> of_Z k = 0 \/ of_Z k = -0 -> k = 0%Z.
Proof.
  intros Hk. pattern k. apply range_cases; [clear k Hk | exact Hk]. intros n Hn.
  destruct n as [|n]; [reflexivity|].
  intros H. exfalso.
  assert (E : (of_Z (Z.of_nat (S n)) =? 0) = true) by (destruct H as [-> | ->]; reflexivity).
  clear H. revert E.
  do 41 (destruct n as [|n]; [vm_compute; discriminate|]).
  lia.
Qed.

(** A Number equal to the key [k] reads the row stored under [k]. *)
Lemma get_integer ph k :
  (0 <= k <= 41)%Z -> (ph =? of_Z k) = true ->
  get NTerzaghi ph = entry k /\ entry k <> None.
Proof.
  intros Hk H. destruct (eqb_true_cases _ _ H) as [-> | [Hph Hz]].
  - now apply get_of_Z.
  - apply of_Z_zero in Hz; [subst k | exact Hk].
    destruct Hph as [-> | ->]; split; (reflexivity || discriminate).
Qed.

Lemma get_defined ph :
  integer_0_41 ph = true -> exists nc nq ng, get NTerzaghi ph = Some (nc, nq, ng).
Proof.
  intros H. apply integer_0_41_spec in H. destruct H as (k & Hk & H).
  destruct (get_integer ph k Hk H) as [E Hn].
  rewrite E. destruct (entry k) as [[[nc nq] ng]|]; [now exists nc, nq, ng | contradiction].
Qed.

Lemma get_undefined ph : integer_0_41 ph = false -> get NTerzaghi ph = None.
Proof.
  intros Hn. apply get_None. intros k Hk.
  destruct (ph =? of_Z k) eqn:E; [|reflexivity].
  assert (Ht : integer_0_41 ph = true).
  { apply integer_0_41_spec. exists k. split; [now apply keys_range | exact E]. }
  congruence.
Qed.

(** ** The constructor, field by field *)

Lemma constructor_Normal c ph D uw B sh Dw fs nc nq ng :
  get NTerzaghi ph = Some (nc, nq, ng) ->
  exists r, constructor c ph D uw B sh Dw fs = Normal r /\
            built r c ph D uw B sh Dw fs nc nq ng.
Proof.
  intros E. unfold constructor. rewrite E.
  destruct (shapeCoefficients sh) as [[[[c1 c2] c3] eq] out] eqn:Es.
  eexists. split; [reflexivity|].
  unfold built; cbn. rewrite Es. repeat split.
Qed.

Lemma constructor_Throw c ph D uw B sh Dw fs :
  get NTerzaghi ph = None -> constructor c ph D uw B sh Dw fs = Throw TypeError.
Proof. intros E. unfold constructor. now rewrite E. Qed.

Lemma constructor_integer c ph D uw B sh Dw fs :
  integer_0_41 ph = true ->
  exists r nc nq ng, get NTerzaghi ph = Some (nc, nq, ng) /\
    constructor c ph D uw B sh Dw fs = Normal r /\
    built r c ph D uw B sh Dw fs nc nq ng.
Proof.
  intros H. destruct (get_defined ph H) as (nc & nq & ng & E).
  destruct (constructor_Normal c ph D uw B sh Dw fs nc nq ng E) as (r & Hr & Hb).
  now exists r, nc, nq, ng.
Qed.

Lemma shapeCoefficients_other sh :
  sh <> "square"%string -> sh <> "circular"%string -> sh <> "continuous"%string ->
  shapeCoefficients sh =
    (1, 1, 0.5, "(c * Nq) + (Eff.Stress * Nq) + (0.5 * gamma * B * Ng)"%string,
     ["Error: bad shape choice. Defaulting to continuous"%string]).
Proof.
  intros H1 H2 H3. unfold shapeCoefficients.
  apply String.eqb_neq in H1, H2, H3. now rewrite H1, H2, H3.
Qed.

Lemma shapeCoefficients_coef2 sh c1 c2 c3 eq out :
  shapeCoefficients sh = (c1, c2, c3, eq, out) -> c2 = 1.
Proof.
  unfold shapeCoefficients.
  repeat match goal with |- context [String.eqb ?a ?b] => destruct (String.eqb a b) end;
    intros [= _ <- _ _ _]; reflexivity.
Qed.

(** ** The groundwater case analysis on a supplied, truthy depth *)

Lemma defaultGroundwaterDepth_supplied D B Dw :
  ToBoolean (Some Dw) = true -> defaultGroundwaterDepth D B (Some Dw) = Dw.
Proof. intros H. unfold defaultGroundwaterDepth. now rewrite H. Qed.

Lemma defaultGroundwaterDepth_falsy D B Dw :
  ToBoolean Dw = false -> defaultGroundwaterDepth D B Dw = 2 * (D + B).
Proof. intros H. unfold defaultGroundwaterDepth. now rewrite H. Qed.

(** Lines 100-106 on a groundwater depth that line 97 left alone. *)
Lemma effectiveUnitWeightOf_cases D uw B gw :
  ((gw <=? D) = true -> effectiveUnitWeightOf D uw B gw = uw - 62.4) /\
  ((D <? gw) = true -> (gw <? D + B) = true ->
   effectiveUnitWeightOf D uw B gw = uw - 62.4 * (1 - (gw - D) / B)) /\
  ((gw <=? D) = false -> geb gw (D + B) = true ->
   effectiveUnitWeightOf D uw B gw = uw).
Proof.
  unfold effectiveUnitWeightOf, unitWeightWater, geb. repeat split.
  - now intros ->.
  - intros H1 H2. now rewrite (ltb_leb_false _ _ H1), H1, H2.
  - intros H1 H2. now rewrite H1, (leb_ltb_false _ _ H2), andb_false_r.
Qed.

(** Lines 109-114 on a groundwater depth that line 97 left alone. *)
Lemma effectiveStressOf_cases D uw Dw :
  (geb Dw D = true -> effectiveStressOf D uw Dw (Some Dw) = uw * D) /\
  ((Dw <? D) = true ->
   effectiveStressOf D uw Dw (Some Dw) = uw * D - (D - Dw) * 62.4).
Proof.
  unfold effectiveStressOf, unitWeightWater, geb, ToNumber. split.
  - now intros ->.
  - intros H. now rewrite (ltb_leb_false _ _ H).
Qed.

Lemma effectiveStressOf_above D uw gw Dw :
  geb gw D = true -> effectiveStressOf D uw gw Dw = uw * D.
Proof. intros H. unfold effectiveStressOf. now rewrite H. Qed.

Lemma effectiveUnitWeightOf_beyond D uw B gw :
  (gw <=? D) = false -> (gw <? D + B) = false ->
  effectiveUnitWeightOf D uw B gw = uw.
Proof.
  intros H1 H2. unfold effectiveUnitWeightOf. now rewrite H1, H2, andb_false_r.
Qed.

(** On a supplied groundwater depth that is neither a zero nor NaN, the
    instance follows the three cases of the effective unit weight and the two
    cases of the effective stress. *)
Lemma groundwater_rule_supplied (c ph D uw B : number) (sh : string)
    (Dw fs : number) :
  integer_0_41 ph = true -> ToBoolean (Some Dw) = true ->
  exists r,
    constructor c ph D uw B sh (Some Dw) fs = Normal r /\
    groundwaterDepth r = Dw /\
    ((Dw <=? D) = true -> effectiveUnitWeight r = uw - 62.4) /\
    ((D <? Dw) = true -> (Dw <? D + B) = true ->
     effectiveUnitWeight r = uw - 62.4 * (1 - (Dw - D) / B)) /\
    ((Dw <=? D) = false -> geb Dw (D + B) = true -> effectiveUnitWeight r = uw) /\
    (geb Dw D = true -> effectiveStress r = uw * D) /\
    ((Dw <? D) = true -> effectiveStress r = uw * D - (D - Dw) * 62.4).
Proof.
  intros H Ht.
  destruct (constructor_integer c ph D uw B sh (Some Dw) fs H)
    as (r & nc & nq & ng & _ & Hr & Hb).
  exists r. split; [exact Hr|]. unfold built in Hb.
  destruct Hb as (_ & _ & _ & _ & _ & _ & _ & Hg & Hu & Hs & _).
  rewrite (defaultGroundwaterDepth_supplied D B Dw Ht) in Hg.
  rewrite Hg in Hu, Hs. rewrite Hu, Hs.
  destruct (effectiveUnitWeightOf_cases D uw B Dw) as (U1 & U2 & U3).
  destruct (effectiveStressOf_cases D uw Dw) as (S1 & S2).
  repeat split; assumption.
Qed.

(** ** Claims *)




(** A negative FS gives a negative allowable capacity. *)
Example FS_negative_returns_negative :
  exists r,
    constructor 0 30 3 120 4 "continuous" None (-3) = Normal r /\
    allowableCapacity r = -4308.
Proof. eexists. split; [vm_compute; reflexivity | reflexivity]. Qed.

(** C2, at a groundwater depth of 0.  With depth 3 and width 4 the water
    table at the surface is above the foundation level ([0 <= 3]), yet
    [effectiveUnitWeight] is the unit weight 120 and not [120 - 62.4]:
    line 97 has replaced the 0 by [2 * (3 + 4) = 14]. *)
Theorem groundwater_at_surface_unit_weight :
  exists r,
    constructor 0 30 3 120 4 "continuous" (Some 0) 3 = Normal r /\
    geb 0 0 = true /\ (0 <=? depth r) = true /\
    groundwaterDepth r = 14 /\
    effectiveUnitWeight r = 120 /\
    (effectiveUnitWeight r =? 120 - unitWeightWater) = false.
Proof.
  eexists. split; [vm_compute; reflexivity|]. repeat split.
Qed.

(** C3, at a groundwater depth of 0.  With depth 3 the water table at the
    surface is above the foundation level ([0 < 3]), yet [effectiveStress]
    is [120 * 3 = 360] and not [120 * 3 - (3 - 0) * 62.4]. *)
Theorem groundwater_at_surface_stress :
  exists r,
    constructor 0 30 3 120 4 "continuous" (Some 0) 3 = Normal r /\
    geb 0 0 = true /\ (0 <? depth r) = true /\
    effectiveStress r = 360 /\
    (effectiveStress r =? 120 * 3 - (3 - 0) * unitWeightWater) = false.
Proof.
  eexists. split; [vm_compute; reflexivity|]. repeat split.
Qed.

(** C4.  For every input whose [phi] is an integer in [0, 41] the
    constructor returns an instance with
    [bearingCapacity = Math.round(coef1*cohesion*Nc + coef2*effectiveStress*Nq
    + coef3*effectiveUnitWeight*width*Ng)] and
    [allowableCapacity = Math.round(bearingCapacity / FS)], the quotient
    taken on the rounded [bearingCapacity]; for cohesion 0, phi 30, depth 3,
    unit weight 120, width 4, "continuous", no groundwater depth and FS 3
    the two values are 12924 and 4308. *)
Theorem bearing_capacity_formula (c ph D uw B : number) (sh : string)
    (Dw : optnumber) (fs : number) :
  integer_0_41 ph = true ->
  (exists r,
     constructor c ph D uw B sh Dw fs = Normal r /\
     bearingCapacity r =
       Math_round ((coef1 r * c * Nc r) + (coef2 r * effectiveStress r * Nq r)
                   + (coef3 r * effectiveUnitWeight r * B * Ng r)) /\
     allowableCapacity r = Math_round (bearingCapacity r / fs)) /\
  (exists r,
     constructor 0 30 3 120 4 "continuous" None 3 = Normal r /\
     bearingCapacity r = 12924 /\ allowableCapacity r = 4308).
Proof.
  intros H. split.
  - destruct (constructor_integer c ph D uw B sh Dw fs H)
      as (r & nc & nq & ng & _ & Hr & Hb).
    exists r. split; [exact Hr|]. unfold built in Hb.
    destruct Hb as (_ & _ & _ & _ & _ & _ & _ & _ & _ & _ & Hc & Hq & Hg & _ & Hbc & Hac).
    rewrite Hc, Hq, Hg. split; assumption.
  - eexists. split; [vm_compute; reflexivity|]. split; reflexivity.
Qed.

Lemma bearing_capacity_formula_witness :
  (exists r,
     constructor 500 28 3.5 115 5 "square" (Some 6) 2 = Normal r /\
     bearingCapacity r =
       Math_round ((coef1 r * 500 * Nc r) + (coef2 r * effectiveStress r * Nq r)
                   + (coef3 r * effectiveUnitWeight r * 5 * Ng r)) /\
     allowableCapacity r = Math_round (bearingCapacity r / 2)) /\
  (exists r,
     constructor 0 30 3 120 4 "continuous" None 3 = Normal r /\
     bearingCapacity r = 12924 /\ allowableCapacity r = 4308).
Proof.
  apply (bearing_capacity_formula 500 28 3.5 115 5 "square" (Some 6) 2). reflexivity.
Defined.

(** C5.  For every integer [k] in [0, 41] and every Number [ph] equal to
    it, the read [NTerzaghi[ph]] is the row the table stores under [k], and
    the instance carries that row unchanged in [Nc], [Nq], [Ng]; the rows
    of 0, 30 and 41 are (5.7, 1, 0), (37.2, 22.5, 20.1) and
    (106.8, 93.8, 148.5). *)
Theorem lookup_exact (k : Z) (ph c D uw B : number) (sh : string)
    (Dw : optnumber) (fs : number) :
  (0 <= k <= 41)%Z -> (ph =? of_Z k) = true ->
  (exists nc nq ng r,
     entry k = Some (nc, nq, ng) /\ get NTerzaghi ph = Some (nc, nq, ng) /\
     constructor c ph D uw B sh Dw fs = Normal r /\
     Nc r = nc /\ Nq r = nq /\ Ng r = ng) /\
  get NTerzaghi 0 = Some (5.7, 1, 0) /\
  get NTerzaghi 30 = Some (37.2, 22.5, 20.1) /\
  get NTerzaghi 41 = Some (106.8, 93.8, 148.5).
Proof.
  intros Hk H. split; [|repeat split; reflexivity].
  destruct (get_integer ph k Hk H) as [E Hn].
  destruct (entry k) as [[[nc nq] ng]|]; [|contradiction].
  destruct (constructor_Normal c ph D uw B sh Dw fs nc nq ng E) as (r & Hr & Hb).
  exists nc, nq, ng, r. unfold built in Hb. tauto.
Qed.

Lemma lookup_exact_witness :
  (exists nc nq ng r,
     entry 35 = Some (nc, nq, ng) /\ get NTerzaghi 35 = Some (nc, nq, ng) /\
     constructor 0 35 3 120 4 "square" None 3 = Normal r /\
     Nc r = nc /\ Nq r = nq /\ Ng r = ng) /\
  get NTerzaghi 0 = Some (5.7, 1, 0) /\
  get NTerzaghi 30 = Some (37.2, 22.5, 20.1) /\
  get NTerzaghi 41 = Some (106.8, 93.8, 148.5).
Proof.
  apply (lookup_exact 35 35 0 3 120 4 "square" None 3); [lia | reflexivity].
Defined.

(** C6, at phi = 42.  The call with phi 42 returns no instance, but what
    it throws is not an OutOfRangeError: [NTerzaghi[42]] is [undefined] and
    reading its element 0 at line 117 throws the engine's TypeError.  So it
    is at phi = -1.  No statement of the source tests the range of phi. *)
Theorem lookup_throws_TypeError :
  get NTerzaghi 42 = None /\
  constructor 0 42 3 120 4 "continuous" None 3 = Throw (Error "TypeError") /\
  constructor 0 (-1) 3 120 4 "continuous" None 3 = Throw (Error "TypeError") /\
  Error "TypeError" <> Error "OutOfRangeError".
Proof.
  split; [reflexivity|]. split; [reflexivity|]. split; [reflexivity|].
  discriminate.
Qed.

(** C6, as the code has it.  The constructor has no range check on phi.  For
    every Number [ph] that is not an integer in [0, 41] the read
    [NTerzaghi[ph]] is [undefined], reading its element 0 at line 117
    throws a TypeError, and no instance is returned: nothing is clamped or
    extrapolated.  So it is for 42 and for -1. *)
Theorem lookup_out_of_range_throws (ph c D uw B : number) (sh : string)
    (Dw : optnumber) (fs : number) :
  integer_0_41 ph = false ->
  get NTerzaghi ph = None /\
  constructor c ph D uw B sh Dw fs = Throw (Error "TypeError") /\
  (forall r, constructor c ph D uw B sh Dw fs <> Normal r) /\
  constructor c 42 D uw B sh Dw fs = Throw (Error "TypeError") /\
  constructor c (-1) D uw B sh Dw fs = Throw (Error "TypeError").
Proof.
  intros H. pose proof (get_undefined ph H) as E.
  pose proof (constructor_Throw c ph D uw B sh Dw fs E) as HT.
  split; [exact E|]. split; [exact HT|].
  split; [intros r Hr; rewrite HT in Hr; discriminate Hr|].
  split; apply constructor_Throw; apply get_undefined; reflexivity.
Qed.

Lemma lookup_out_of_range_throws_witness :
  get NTerzaghi 30.5 = None /\
  constructor 0 30.5 3 120 4 "continuous" None 3 = Throw (Error "TypeError") /\
  (forall r, constructor 0 30.5 3 120 4 "continuous" None 3 <> Normal r) /\
  constructor 0 42 3 120 4 "continuous" None 3 = Throw (Error "TypeError") /\
  constructor 0 (-1) 3 120 4 "continuous" None 3 = Throw (Error "TypeError").
Proof.
  apply (lookup_out_of_range_throws 30.5 0 3 120 4 "continuous" None 3).
  reflexivity.
Defined.

(** C7.  When [groundwaterDepth] is omitted, [this.groundwaterDepth] is
    set to [2 * (depth + width)], and the two case analyses run on that
    value; for depth 3.5 and width 4 it is 15. *)
Theorem groundwater_default (c ph D uw B : number) (sh : string) (fs : number) :
  integer_0_41 ph = true ->
  defaultGroundwaterDepth D B None = 2 * (D + B) /\
  (exists r,
     constructor c ph D uw B sh None fs = Normal r /\
     groundwaterDepth r = 2 * (D + B) /\
     effectiveUnitWeight r = effectiveUnitWeightOf D uw B (2 * (D + B)) /\
     effectiveStress r = effectiveStressOf D uw (2 * (D + B)) None) /\
  defaultGroundwaterDepth 3.5 4 None = 15.
Proof.
  intros H. split; [reflexivity|]. split; [|reflexivity].
  destruct (constructor_integer c ph D uw B sh None fs H)
    as (r & nc & nq & ng & _ & Hr & Hb).
  exists r. unfold built in Hb.
  destruct Hb as (_ & _ & _ & _ & _ & _ & _ & Hg & Hu & Hs & _).
  rewrite Hg in Hu, Hs. change (defaultGroundwaterDepth D B None) with (2 * (D + B)) in *.
  tauto.
Qed.

Lemma groundwater_default_witness :
  defaultGroundwaterDepth 3.5 4 None = 2 * (3.5 + 4) /\
  (exists r,
     constructor 0 30 3.5 120 4 "continuous" None 3 = Normal r /\
     groundwaterDepth r = 2 * (3.5 + 4) /\
     effectiveUnitWeight r = effectiveUnitWeightOf 3.5 120 4 (2 * (3.5 + 4)) /\
     effectiveStress r = effectiveStressOf 3.5 120 (2 * (3.5 + 4)) None) /\
  defaultGroundwaterDepth 3.5 4 None = 15.
Proof.
  apply (groundwater_default 0 30 3.5 120 4 "continuous" 3). reflexivity.
Defined.

(** C8, at an infinite depth.  Infinity is a depth [>= 0], and with width 1
    and no groundwater depth the default is [2 * (Infinity + 1) = Infinity],
    which is [<= depth]: the first branch of line 100 subtracts the unit
    weight of water. *)
Lemma default_at_infinite_depth :
  (0 <=? infinity) = true /\ (0 <? 1) = true /\
  exists r,
    constructor 0 30 infinity 120 1 "continuous" None 3 = Normal r /\
    groundwaterDepth r = infinity /\
    effectiveUnitWeight r = 120 - unitWeightWater /\
    (effectiveUnitWeight r =? unitWeight r) = false.
Proof.
  split; [reflexivity|]. split; [reflexivity|].
  eexists. split; [vm_compute; reflexivity|]. repeat split.
Qed.

(** C8, as the code has it.  For every input with a finite depth [D >= 0]
    and a width [B > 0] in which [groundwaterDepth] is omitted, the
    substituted [2 * (D + B)] is [>= D + B] and [>= D], and the instance has
    [effectiveUnitWeight = unitWeight] and
    [effectiveStress = unitWeight * D]. *)
Theorem default_disables_correction (c ph D uw B : number) (sh : string)
    (fs : number) :
  integer_0_41 ph = true ->
  (0 <=? D) = true -> (D <? infinity) = true -> (0 <? B) = true ->
  exists r,
    constructor c ph D uw B sh None fs = Normal r /\
    groundwaterDepth r = 2 * (D + B) /\
    geb (groundwaterDepth r) (D + B) = true /\
    geb (groundwaterDepth r) D = true /\
    effectiveUnitWeight r = uw /\
    effectiveStress r = uw * D.
Proof.
  intros H HD HDf HB.
  destruct (default_beyond_zone D B HD HDf HB) as (Z1 & Z2 & Z3 & Z4).
  destruct (constructor_integer c ph D uw B sh None fs H)
    as (r & nc & nq & ng & _ & Hr & Hb).
  exists r. split; [exact Hr|]. unfold built in Hb.
  destruct Hb as (_ & _ & _ & _ & _ & _ & _ & Hg & Hu & Hs & _).
  change (defaultGroundwaterDepth D B None) with (2 * (D + B)) in Hg.
  rewrite Hg in Hu, Hs |- *. unfold geb.
  rewrite Hu, Hs, (effectiveUnitWeightOf_beyond D uw B _ Z1 Z2),
    (effectiveStressOf_above D uw _ None Z3).
  repeat split; assumption.
Qed.

Lemma default_disables_correction_witness :
  exists r,
    constructor 0 30 3 120 4 "continuous" None 3 = Normal r /\
    groundwaterDepth r = 2 * (3 + 4) /\
    geb (groundwaterDepth r) (3 + 4) = true /\
    geb (groundwaterDepth r) 3 = true /\
    effectiveUnitWeight r = 120 /\
    effectiveStress r = 120 * 3.
Proof.
  apply (default_disables_correction 0 30 3 120 4 "continuous" 3); reflexivity.
Defined.

(** C9.  The shapes resolve to: "square" (1.3, 1, 0.4), "circular"
    (1.3, 1, 0.3), "continuous" (1, 1, 0.5), and any other string [sh]
    (1, 1, 0.5) as well, with an instance returned; [coef2] is 1 for every
    shape, so two calls that differ in the shape alone have the same
    surcharge term [coef2 * effectiveStress * Nq]. *)
Theorem shape_resolution (c ph D uw B : number) (sh : string)
    (Dw : optnumber) (fs : number) :
  integer_0_41 ph = true ->
  sh <> "square"%string -> sh <> "circular"%string -> sh <> "continuous"%string ->
  (exists r, constructor c ph D uw B "square" Dw fs = Normal r /\
             coefs r = (1.3, 1, 0.4)) /\
  (exists r, constructor c ph D uw B "circular" Dw fs = Normal r /\
             coefs r = (1.3, 1, 0.3)) /\
  (exists r, constructor c ph D uw B "continuous" Dw fs = Normal r /\
             coefs r = (1, 1, 0.5)) /\
  (exists r, constructor c ph D uw B sh Dw fs = Normal r /\
             coefs r = (1, 1, 0.5)) /\
  (forall s1 s2 : string, exists r1 r2,
     constructor c ph D uw B s1 Dw fs = Normal r1 /\
     constructor c ph D uw B s2 Dw fs = Normal r2 /\
     coef2 r1 = 1 /\ coef2 r2 = 1 /\
     coef2 r1 * effectiveStress r1 * Nq r1 = coef2 r2 * effectiveStress r2 * Nq r2).
Proof.
  intros H H1 H2 H3.
  destruct (get_defined ph H) as (nc & nq & ng & E).
  assert (Hc : forall s c1 c2 c3 eq out,
             shapeCoefficients s = (c1, c2, c3, eq, out) ->
             exists r, constructor c ph D uw B s Dw fs = Normal r /\
                       coefs r = (c1, c2, c3)).
  { intros s c1 c2 c3 eq out Es.
    destruct (constructor_Normal c ph D uw B s Dw fs nc nq ng E) as (r & Hr & Hb).
    exists r. split; [exact Hr|]. unfold built in Hb.
    destruct Hb as (_ & _ & _ & _ & _ & _ & _ & _ & _ & _ & _ & _ & _ & Hs & _).
    rewrite Es in Hs. unfold coefs. congruence. }
  split; [eapply Hc; reflexivity|].
  split; [eapply Hc; reflexivity|].
  split; [eapply Hc; reflexivity|].
  split; [eapply Hc; now apply shapeCoefficients_other|].
  intros s1 s2.
  destruct (constructor_Normal c ph D uw B s1 Dw fs nc nq ng E) as (r1 & Hr1 & Hb1).
  destruct (constructor_Normal c ph D uw B s2 Dw fs nc nq ng E) as (r2 & Hr2 & Hb2).
  exists r1, r2. split; [exact Hr1|]. split; [exact Hr2|].
  unfold built in Hb1, Hb2.
  destruct Hb1 as (_ & _ & _ & _ & _ & _ & _ & Hg1 & _ & Hs1 & _ & Hq1 & _ & Hc1 & _).
  destruct Hb2 as (_ & _ & _ & _ & _ & _ & _ & Hg2 & _ & Hs2 & _ & Hq2 & _ & Hc2 & _).
  symmetry in Hc1, Hc2.
  apply shapeCoefficients_coef2 in Hc1, Hc2.
  rewrite Hc1, Hc2, Hs1, Hs2, Hg1, Hg2, Hq1, Hq2. repeat split.
Qed.

Lemma shape_resolution_witness :
  (exists r, constructor 500 30 3 120 4 "square" (Some 5) 3 = Normal r /\
             coefs r = (1.3, 1, 0.4)) /\
  (exists r, constructor 500 30 3 120 4 "circular" (Some 5) 3 = Normal r /\
             coefs r = (1.3, 1, 0.3)) /\
  (exists r, constructor 500 30 3 120 4 "continuous" (Some 5) 3 = Normal r /\
             coefs r = (1, 1, 0.5)) /\
  (exists r, constructor 500 30 3 120 4 "triangular" (Some 5) 3 = Normal r /\
             coefs r = (1, 1, 0.5)) /\
  (forall s1 s2 : string, exists r1 r2,
     constructor 500 30 3 120 4 s1 (Some 5) 3 = Normal r1 /\
     constructor 500 30 3 120 4 s2 (Some 5) 3 = Normal r2 /\
     coef2 r1 = 1 /\ coef2 r2 = 1 /\
     coef2 r1 * effectiveStress r1 * Nq r1 = coef2 r2 * effectiveStress r2 * Nq r2).
Proof.
  apply (shape_resolution 500 30 3 120 4 "triangular" (Some 5) 3);
    [reflexivity | discriminate | discriminate | discriminate].
Defined.

(** C10, at an infinite depth.  With groundwater depth 0, width 1 and depth
    Infinity the 0 is replaced by [2 * (Infinity + 1) = Infinity], which is
    [<= depth]: the buoyant reduction applies and [effectiveUnitWeight] is
    not the unit weight. *)
Lemma zero_groundwater_at_infinite_depth :
  (0 <? 1) = true /\
  exists r,
    constructor 0 30 infinity 120 1 "continuous" (Some 0) 3 = Normal r /\
    groundwaterDepth r = infinity /\
    effectiveUnitWeight r = 120 - unitWeightWater /\
    (effectiveUnitWeight r =? unitWeight r) = false.
Proof.
  split; [reflexivity|].
  eexists. split; [vm_compute; reflexivity|]. repeat split.
Qed.

(** C10, as the code has it.  A groundwater depth of 0 is falsy, so line 97
    replaces it by [2 * (D + B)] as if it had been omitted.  For every input
    with groundwater depth 0, a finite depth [D >= 0] and a width [B > 0]
    the call returns what the call without a groundwater depth returns, an
    instance with [effectiveUnitWeight = unitWeight] and
    [effectiveStress = unitWeight * D]. *)
Theorem zero_groundwater_as_omitted (c ph D uw B : number) (sh : string)
    (fs : number) :
  integer_0_41 ph = true ->
  (0 <=? D) = true -> (D <? infinity) = true -> (0 <? B) = true ->
  defaultGroundwaterDepth D B (Some 0) = 2 * (D + B) /\
  constructor c ph D uw B sh (Some 0) fs = constructor c ph D uw B sh None fs /\
  exists r,
    constructor c ph D uw B sh (Some 0) fs = Normal r /\
    groundwaterDepth r = 2 * (D + B) /\
    effectiveUnitWeight r = uw /\
    effectiveStress r = uw * D.
Proof.
  intros H HD HDf HB.
  destruct (default_beyond_zone D B HD HDf HB) as (Z1 & Z2 & Z3 & Z4).
  assert (Hdef : defaultGroundwaterDepth D B (Some 0) = 2 * (D + B))
    by (apply defaultGroundwaterDepth_falsy; reflexivity).
  split; [exact Hdef|].
  assert (Heq : constructor c ph D uw B sh (Some 0) fs
                = constructor c ph D uw B sh None fs).
  { unfold constructor. rewrite Hdef.
    change (defaultGroundwaterDepth D B None) with (2 * (D + B)).
    rewrite !(effectiveStressOf_above D uw _ _ Z3). reflexivity. }
  split; [exact Heq|]. rewrite Heq.
  destruct (constructor_integer c ph D uw B sh None fs H)
    as (r & nc & nq & ng & _ & Hr & Hb).
  exists r. split; [exact Hr|]. unfold built in Hb.
  destruct Hb as (_ & _ & _ & _ & _ & _ & _ & Hg & Hu & Hs & _).
  change (defaultGroundwaterDepth D B None) with (2 * (D + B)) in Hg.
  rewrite Hg in Hu, Hs |- *.
  rewrite Hu, Hs, (effectiveUnitWeightOf_beyond D uw B _ Z1 Z2),
    (effectiveStressOf_above D uw _ None Z3).
  repeat split.
Qed.

Lemma zero_groundwater_as_omitted_witness :
  defaultGroundwaterDepth 3 4 (Some 0) = 2 * (3 + 4) /\
  constructor 0 30 3 120 4 "continuous" (Some 0) 3
  = constructor 0 30 3 120 4 "continuous" None 3 /\
  exists r,
    constructor 0 30 3 120 4 "continuous" (Some 0) 3 = Normal r /\
    groundwaterDepth r = 2 * (3 + 4) /\
    effectiveUnitWeight r = 120 /\
    effectiveStress r = 120 * 3.
Proof.
  apply (zero_groundwater_as_omitted 0 30 3 120 4 "continuous" 3); reflexivity.
Defined.

(** * The form

    The rest of the file is about the component [BearingCapacityApp]: what
    its validators accept, what its handlers leave in the state, and what
    the class computes when it is called with the strings of the form. *)

(** ** The languages of the two patterns *)

Section Patterns.
Local Open Scope string_scope.

Lemma matches_empty_inv s : matches Empty s -> False.
Proof. intros H. inversion H. Qed.

Lemma matches_eps_inv s : matches Eps s -> s = EmptyString.
Proof. intros H. now inversion H. Qed.

Lemma matches_class_inv p s :
  matches (Class p) s -> exists c, s = String c EmptyString /\ p c = true.
Proof. intros H. inversion H; subst. now exists c. Qed.

Lemma matches_seq_inv r1 r2 s :
  matches (Seq r1 r2) s ->
  exists s1 s2, s = s1 ++ s2 /\ matches r1 s1 /\ matches r2 s2.
Proof. intros H. inversion H; subst. now exists s1, s2. Qed.

Lemma matches_alt_inv r1 r2 s :
  matches (Alt r1 r2) s -> matches r1 s \/ matches r2 s.
Proof. intros H. inversion H; subst; auto. Qed.

Lemma matches_star_inv r s :
  matches (Star r) s ->
  s = EmptyString \/
  exists c s1 s2, s = String c s1 ++ s2 /\ matches r (String c s1) /\ matches (Star r) s2.
Proof. intros H. inversion H; subst; [now left | right; now exists c, s1, s2]. Qed.

Lemma nullable_matches r : nullable r = true <-> matches r EmptyString.
Proof.
  split.
  - induction r; cbn; intros H; try discriminate.
    + constructor.
    + apply andb_true_iff in H. destruct H.
      change EmptyString with (EmptyString ++ EmptyString). constructor; auto.
    + apply orb_true_iff in H. destruct H; [apply m_alt_l | apply m_alt_r]; auto.
    + constructor.
  - induction r; cbn; intros H; try reflexivity.
    + now apply matches_empty_inv in H.
    + apply matches_class_inv in H. destruct H as (c & E & _). discriminate.
    + apply matches_seq_inv in H. destruct H as (s1 & s2 & E & H1 & H2).
      destruct s1; [|discriminate]. cbn in E. subst s2.
      now rewrite IHr1, IHr2.
    + apply matches_alt_inv in H. destruct H as [H|H].
      * now rewrite IHr1.
      * rewrite IHr2 by assumption. apply orb_true_r.
Qed.

Lemma deriv_matches r : forall c s, matches (deriv c r) s <-> matches r (String c s).
Proof.
  induction r; intros c s; cbn [deriv].
  - split; intros H; now apply matches_empty_inv in H.
  - split; intros H; [now apply matches_empty_inv in H|].
    apply matches_eps_inv in H. discriminate.
  - destruct (p c) eqn:E; split; intros H.
    + apply matches_eps_inv in H. subst. now constructor.
    + apply matches_class_inv in H. destruct H as (c' & [= -> ->] & _). constructor.
    + now apply matches_empty_inv in H.
    + apply matches_class_inv in H. destruct H as (c' & [= -> ->] & H). congruence.
  - assert (Hl : forall s, matches (Seq (deriv c r1) r2) s -> matches (Seq r1 r2) (String c s)).
    { intros s' H. apply matches_seq_inv in H. destruct H as (s1 & s2 & -> & H1 & H2).
      apply IHr1 in H1. change (String c (s1 ++ s2)) with (String c s1 ++ s2).
      now constructor. }
    destruct (nullable r1) eqn:N; split; intros H.
    + apply matches_alt_inv in H. destruct H as [H|H]; [now apply Hl|].
      apply IHr2 in H. change (String c s) with (EmptyString ++ String c s).
      constructor; [now apply nullable_matches | assumption].
    + apply matches_seq_inv in H. destruct H as (s1 & s2 & E & H1 & H2).
      destruct s1 as [|c1 s1]; cbn in E.
      * subst s2. apply m_alt_r. now apply IHr2.
      * injection E as -> ->. apply m_alt_l. constructor; [now apply IHr1 | assumption].
    + now apply Hl.
    + apply matches_seq_inv in H. destruct H as (s1 & s2 & E & H1 & H2).
      destruct s1 as [|c1 s1]; cbn in E.
      * apply nullable_matches in H1. congruence.
      * injection E as -> ->. constructor; [now apply IHr1 | assumption].
  - split; intros H; apply matches_alt_inv in H; destruct H as [H|H].
    + apply m_alt_l. now apply IHr1.
    + apply m_alt_r. now apply IHr2.
    + apply m_alt_l. now apply IHr1.
    + apply m_alt_r. now apply IHr2.
  - split; intros H.
    + apply matches_seq_inv in H. destruct H as (s1 & s2 & -> & H1 & H2).
      apply IHr in H1. change (String c (s1 ++ s2)) with (String c s1 ++ s2).
      now constructor.
    + apply matches_star_inv in H. destruct H as [E | (c' & s1 & s2 & E & H1 & H2)];
        [discriminate|].
      cbn in E. injection E as -> ->.
      constructor; [now apply IHr | assumption].
Qed.

Lemma fullmatch_matches s : forall r, fullmatch r s = true <-> matches r s.
Proof.
  induction s as [|c s IH]; intros r; cbn.
  - apply nullable_matches.
  - rewrite IH. apply deriv_matches.
Qed.

Lemma append_nil_r s : s ++ EmptyString = s.
Proof. induction s; cbn; congruence. Qed.

Lemma append_assoc s1 s2 s3 : (s1 ++ s2) ++ s3 = s1 ++ (s2 ++ s3).
Proof. induction s1; cbn; congruence. Qed.

Lemma append_eq_nil s1 s2 : s1 ++ s2 = EmptyString -> s1 = EmptyString /\ s2 = EmptyString.
Proof. destruct s1; cbn; [auto | discriminate]. Qed.

Lemma all_digits_app s1 s2 :
  all_digits (s1 ++ s2) = all_digits s1 && all_digits s2.
Proof. induction s1; cbn; [reflexivity|]. now rewrite IHs1, andb_assoc. Qed.

Lemma matches_digit s : matches digit s <-> exists c, s = String c EmptyString /\ isDigit c = true.
Proof.
  split.
  - apply matches_class_inv.
  - intros (c & -> & H). now constructor.
Qed.

Lemma matches_point s : matches point s <-> s = ".".
Proof.
  split.
  - intros H. apply matches_class_inv in H. destruct H as (c & -> & H).
    apply Ascii.eqb_eq in H. now subst.
  - intros ->. now constructor.
Qed.

Lemma matches_star_digit s : matches (Star digit) s <-> all_digits s = true.
Proof.
  induction s as [|c s IH]; cbn.
  - split; [reflexivity | constructor].
  - rewrite andb_true_iff, <- IH. split.
    + intros H. apply matches_star_inv in H.
      destruct H as [E | (c' & s1 & s2 & E & H1 & H2)]; [discriminate|].
      apply matches_digit in H1. destruct H1 as (d & [= -> ->] & Hd).
      cbn in E. injection E as -> ->. now split.
    + intros [Hd H]. change (String c s) with (String c EmptyString ++ s).
      constructor; [now constructor | assumption].
Qed.

Lemma matches_plus_digit s :
  matches (Plus digit) s <-> s <> EmptyString /\ all_digits s = true.
Proof.
  unfold Plus. split.
  - intros H. apply matches_seq_inv in H. destruct H as (s1 & s2 & -> & H1 & H2).
    apply matches_digit in H1. destruct H1 as (c & -> & Hc).
    apply matches_star_digit in H2. cbn. rewrite Hc, H2. split; [discriminate | reflexivity].
  - intros [Hn H]. destruct s as [|c s]; [contradiction|].
    cbn in H. apply andb_true_iff in H. destruct H as [Hc H].
    change (String c s) with (String c EmptyString ++ s).
    constructor; [now constructor | now apply matches_star_digit].
Qed.

Lemma matches_floatPattern s : matches floatPattern s <-> decimalText s.
Proof.
  unfold floatPattern, decimalText, Opt. split.
  - intros H. apply matches_alt_inv in H. destruct H as [H|H].
    + apply matches_seq_inv in H. destruct H as (i & t & -> & Hi & H).
      apply matches_plus_digit in Hi. destruct Hi as [Hn Hi].
      apply matches_seq_inv in H. destruct H as (p & f & -> & Hp & Hf).
      apply matches_star_digit in Hf.
      apply matches_alt_inv in Hp. destruct Hp as [Hp|Hp].
      * apply matches_point in Hp. subst p. right. exists i, f. cbn. auto.
      * apply matches_eps_inv in Hp. subst p. left. cbn.
        rewrite all_digits_app, Hi, Hf. split; [|reflexivity].
        intros E. apply append_eq_nil in E. tauto.
    + apply matches_seq_inv in H. destruct H as (p & f & -> & Hp & Hf).
      apply matches_point in Hp. subst p.
      apply matches_plus_digit in Hf. destruct Hf as [Hn Hf].
      right. exists EmptyString, f. cbn. auto.
  - intros [[Hn H] | (i & f & -> & Hi & Hf & Hne)].
    + apply m_alt_l. rewrite <- (append_nil_r s).
      constructor; [now apply matches_plus_digit|].
      change EmptyString with (EmptyString ++ EmptyString). constructor; [apply m_alt_r; constructor | constructor].
    + destruct i as [|c i].
      * destruct Hne as [Hne|Hne]; [contradiction|]. cbn.
        apply m_alt_r. change (String "." f) with ("." ++ f).
        constructor; [now apply matches_point | now apply matches_plus_digit].
      * apply m_alt_l. constructor; [apply matches_plus_digit; split; [discriminate|assumption]|].
        change (String "." f) with ("." ++ f).
        constructor; [apply m_alt_l; now apply matches_point | now apply matches_star_digit].
Qed.

Lemma matches_StrUnsignedDecimalLiteral s :
  matches StrUnsignedDecimalLiteral s <-> decimalText s.
Proof.
  unfold StrUnsignedDecimalLiteral, decimalText, Opt. split.
  - intros H. apply matches_alt_inv in H. destruct H as [H|H].
    + apply matches_seq_inv in H. destruct H as (i & t & -> & Hi & H).
      apply matches_plus_digit in Hi. destruct Hi as [Hn Hi].
      apply matches_seq_inv in H. destruct H as (p & f & -> & Hp & Hf).
      apply matches_point in Hp. subst p.
      right. exists i, f. cbn. repeat split; auto.
      apply matches_alt_inv in Hf. destruct Hf as [Hf|Hf].
      * now apply matches_plus_digit in Hf.
      * apply matches_eps_inv in Hf. now subst.
    + apply matches_alt_inv in H. destruct H as [H|H].
      * apply matches_seq_inv in H. destruct H as (p & f & -> & Hp & Hf).
        apply matches_point in Hp. subst p.
        apply matches_plus_digit in Hf. destruct Hf as [Hn Hf].
        right. exists EmptyString, f. cbn. auto.
      * left. now apply matches_plus_digit.
  - intros [[Hn H] | (i & f & -> & Hi & Hf & Hne)].
    + apply m_alt_r, m_alt_r. now apply matches_plus_digit.
    + destruct i as [|c i].
      * destruct Hne as [Hne|Hne]; [contradiction|]. cbn.
        apply m_alt_r, m_alt_l. change (String "." f) with ("." ++ f).
        constructor; [now apply matches_point | now apply matches_plus_digit].
      * apply m_alt_l. constructor; [apply matches_plus_digit; split; [discriminate|assumption]|].
        change (String "." f) with ("." ++ f).
        constructor; [now apply matches_point|].
        destruct f as [|d f]; [apply m_alt_r; constructor|].
        apply m_alt_l. apply matches_plus_digit. split; [discriminate | assumption].
Qed.

Lemma fullmatch_same_language s :
  fullmatch StrUnsignedDecimalLiteral s = fullmatch floatPattern s.
Proof.
  apply eq_true_iff_eq.
  now rewrite !fullmatch_matches, matches_StrUnsignedDecimalLiteral, matches_floatPattern.
Qed.

End Patterns.

(** ** The Number of a digit string

    [isValidInt] compares the text of phi with 42 as a Number.  For a text
    of digits that Number is the rounded value of the integer the digits
    denote, and rounding does not move an integer across 42. *)

Module Binary64Division.
Import Binary64.
Local Open Scope Z_scope.

Local Abbreviation fexp64 := (SpecFloat.fexp prec emax).

Lemma digits2_div_pow2 p n q :
  0 <= n -> Zpos q = Zpos p / 2 ^ n ->
  Zpos (digits2_pos q) = Zpos (digits2_pos p) - n.
Proof.
  intros Hn Hq. apply digits2_unique.
  pose proof (digits2_bounds p) as [Hl Hu].
  assert (Hp : 0 < 2 ^ n) by (apply Z.pow_pos_nonneg; lia).
  assert (Hdn : n < Zpos (digits2_pos p)).
  { destruct (Z_lt_le_dec n (Zpos (digits2_pos p))); [assumption|].
    assert (2 ^ Zpos (digits2_pos p) <= 2 ^ n) by (apply Z.pow_le_mono_r; lia).
    rewrite Z.div_small in Hq by lia. lia. }
  rewrite Hq. split.
  - apply Z.div_le_lower_bound; [exact Hp|].
    rewrite Z.mul_comm, <- Z.pow_add_r by lia.
    replace (Zpos (digits2_pos p) - n - 1 + n) with (Zpos (digits2_pos p) - 1) by lia.
    exact Hl.
  - apply Z.div_lt_upper_bound; [exact Hp|].
    rewrite <- Z.pow_add_r by lia.
    replace (n + (Zpos (digits2_pos p) - n)) with (Zpos (digits2_pos p)) by lia.
    exact Hu.
Qed.

(** A mantissa given with enough bits is rounded to a valid float. *)
Lemma binary_round_aux_valid s p ex lx :
  ex <= fexp64 (Zpos (digits2_pos p) + ex) ->
  valid_binary (binary_round_aux prec emax s (Zpos p) ex lx) = true.
Proof.
  intros Hex. unfold binary_round_aux.
  set (E := fexp64 (Zpos (digits2_pos p) + ex)) in *.
  destruct (shr_fexp_spec (Zpos p) ex lx) as [Em Ee]; [lia|].
  cbn [Zdigits2] in Em, Ee. fold E in Em, Ee.
  replace (Z.max ex E) with E in Em, Ee by lia.
  destruct (shr_fexp prec emax (Zpos p) ex lx) as [mrs' e'].
  cbn [fst snd] in Em, Ee. subst e'.
  set (m1 := shr_m mrs') in *.
  set (m2 := round_nearest_even m1 (loc_of_shr_record mrs')).
  pose proof (round_nearest_even_bounds m1 (loc_of_shr_record mrs')) as Hm2. fold m2 in Hm2.
  assert (HE : -1074 <= E) by apply fexp64_ge_emin.
  assert (Hp2 : 0 < 2 ^ (E - ex)) by (apply Z.pow_pos_nonneg; lia).
  assert (Hm1 : 0 <= m1) by (rewrite Em; apply Z.div_pos; lia).
  destruct (shr_fexp_spec m2 E loc_Exact) as [Em' Ee']; [lia|].
  destruct (shr_fexp prec emax m2 E loc_Exact) as [mrs'' e''].
  cbn [fst snd] in Em', Ee'. rewrite <- Ee' in Em'.
  destruct m2 as [|q|q] eqn:Eq2; try lia.
  { rewrite Z.div_0_l in Em' by (apply Z.pow_nonzero; lia). now rewrite Em'. }
  cbn [Zdigits2] in Ee'.
  assert (Hb : E <= fexp64 (Zpos (digits2_pos q) + E) <= E + 1).
  { destruct m1 as [|r|r] eqn:Er; try lia.
    - assert (q = 1%positive) by lia. subst q.
      assert (Hd : Zpos (digits2_pos p) <= E - ex).
      { destruct (Z_lt_le_dec (E - ex) (Zpos (digits2_pos p))); [|assumption].
        pose proof (digits2_bounds p) as [Hl _].
        assert (2 ^ (E - ex) <= 2 ^ (Zpos (digits2_pos p) - 1)) by (apply Z.pow_le_mono_r; lia).
        assert (1 <= Zpos p / 2 ^ (E - ex)) by (apply Z.div_le_lower_bound; lia).
        lia. }
      cbn [digits2_pos]. revert Hd HE. unfold E, SpecFloat.fexp, SpecFloat.emin, prec, emax. lia.
    - pose proof (digits2_div_pow2 p (E - ex) r ltac:(lia) Em) as Hdr.
      assert (Hcan : fexp64 (Zpos (digits2_pos r) + E) = E)
        by (rewrite Hdr; unfold E; f_equal; lia).
      assert (Hlo : Zpos (digits2_pos r) <= Zpos (digits2_pos q)) by (apply digits2_mono; lia).
      assert (Hhi : Zpos (digits2_pos q) <= Zpos (digits2_pos r) + 1).
      { pose proof (digits2_bounds r) as [_ Hru]. pose proof (digits2_bounds q) as [Hql _].
        destruct (Z_le_gt_dec (Zpos (digits2_pos q)) (Zpos (digits2_pos r) + 1)); [assumption|].
        assert (2 ^ (Zpos (digits2_pos r) + 1) <= 2 ^ (Zpos (digits2_pos q) - 1))
          by (apply Z.pow_le_mono_r; lia).
        rewrite Z.pow_add_r in H by lia. lia. }
      revert Hcan Hlo Hhi. unfold SpecFloat.fexp, SpecFloat.emin, prec, emax. lia. }
  replace (Z.max E (fexp64 (Zpos (digits2_pos q) + E)))
    with (fexp64 (Zpos (digits2_pos q) + E)) in Ee' by lia.
  assert (Hcases : e'' = E \/ e'' = E + 1) by lia.
  assert (Hq3 : 0 < Zpos q / 2 ^ (e'' - E) /\
                forall m3, Zpos m3 = Zpos q / 2 ^ (e'' - E) ->
                           Zpos (digits2_pos m3) + e'' = Zpos (digits2_pos q) + E).
  { destruct Hcases as [-> | ->].
    - replace (E - E) with 0 by lia. rewrite Z.pow_0_r, Z.div_1_r. split; [lia|].
      intros m3 [= ->]. reflexivity.
    - replace (E + 1 - E) with 1 by lia.
      assert (Hdq : 2 <= Zpos (digits2_pos q))
        by (revert Ee' HE; unfold SpecFloat.fexp, SpecFloat.emin, prec, emax; lia).
      pose proof (digits2_bounds q) as [Hl _].
      assert (2 ^ 1 <= 2 ^ (Zpos (digits2_pos q) - 1)) by (apply Z.pow_le_mono_r; lia).
      split.
      + apply Z.lt_le_trans with 1; [lia|]. apply Z.div_le_lower_bound; lia.
      + intros m3 Hm3. rewrite (digits2_div_pow2 q 1 m3 ltac:(lia) Hm3). lia. }
  destruct Hq3 as [Hpos Hdig]. rewrite Em'.
  destruct (Zpos q / 2 ^ (e'' - E)) as [|m3|m3] eqn:E3; try lia.
  destruct (e'' <=? emax - prec) eqn:Hov; [|reflexivity].
  cbn [valid_binary]. unfold bounded, canonical_mantissa. rewrite Hov, andb_true_r.
  apply Z.eqb_eq. rewrite (Hdig m3 eq_refl). symmetry. exact Ee'.
Qed.

Lemma div_eucl_1 m : Z.div_eucl m 1 = (m, 0).
Proof.
  pose proof (Z.div_1_r m) as Hq. pose proof (Z.mod_1_r m) as Hr.
  unfold Z.div, Z.modulo in Hq, Hr.
  destruct (Z.div_eucl m 1) as [q r]. cbn in Hq, Hr. now subst.
Qed.

(** The Number of a positive integer numeral: the integer, rounded. *)
Lemma Prim2SF_RoundMV_integer p :
  let s := Z.max 0 (- fexp64 (Zpos (digits2_pos p) - 1)) in
  exists q,
    Zpos q = Zpos p * 2 ^ s /\
    Prim2SF (RoundMV (Zpos p) 0)
    = binary_round_aux prec emax false (Zpos q) (- s) loc_Exact.
Proof.
  intros s.
  assert (Hs : 0 <= s) by (unfold s; lia).
  assert (Hpos : 0 < Zpos p * 2 ^ s) by (apply Z.mul_pos_pos; [lia | apply Z.pow_pos_nonneg; lia]).
  destruct (Zpos p * 2 ^ s) as [|q|q] eqn:Eq; try lia.
  exists q. split; [reflexivity|].
  assert (Hdq : Zpos (digits2_pos q) = Zpos (digits2_pos p) + s)
    by (apply digits2_mul_pow2; [exact Hs | now rewrite Eq]).
  assert (Hdiv : SFdiv prec emax (S754_finite false p 0) (S754_finite false 1 0)
                 = binary_round_aux prec emax false (Zpos q) (- s) loc_Exact).
  { unfold SFdiv, SFdiv_core_binary. cbn [xorb Zdigits2 digits2_pos].
    replace (Zpos (digits2_pos p) + 0 - (1 + 0)) with (Zpos (digits2_pos p) - 1) by lia.
    replace (Z.min (fexp64 (Zpos (digits2_pos p) - 1)) (0 - 0)) with (- s) by (unfold s; lia).
    replace (0 - 0 - - s) with s by lia.
    assert (Hm : match s with
                 | Zpos _ => Z.shiftl (Zpos p) s
                 | 0 => Zpos p
                 | Zneg _ => 0
                 end = Zpos q).
    { rewrite <- Eq. destruct s as [|k|k] eqn:Es; try lia.
      - now rewrite Z.shiftl_mul_pow2 by lia. }
    rewrite Hm, div_eucl_1. reflexivity. }
  unfold RoundMV. change (Z.to_pos (10 ^ Z.of_nat 0)) with 1%positive.
  rewrite Hdiv. apply Prim2SF_SF2Prim. apply binary_round_aux_valid.
  rewrite Hdq. replace (Zpos (digits2_pos p) + s + - s) with (Zpos (digits2_pos p)) by lia.
  unfold s, SpecFloat.fexp, SpecFloat.emin, prec, emax. lia.
Qed.

Lemma compare_cont_Eq a b : Pos.compare_cont Eq a b = Pos.compare a b.
Proof. reflexivity. Qed.

Lemma Prim2SF_42 : Prim2SF 42%float = S754_finite false 5910974510923776 (-47).
Proof. vm_compute. reflexivity. Qed.

(** An integer numeral of value 42 or more is not below 42 as a Number. *)
Lemma RoundMV_ge_42 n :
  42 <= n -> PrimFloat.ltb (RoundMV n 0) 42%float = false.
Proof.
  intros Hn. destruct n as [|p|p]; try lia.
  destruct (Prim2SF_RoundMV_integer p) as (q & Hq & Er). cbv zeta in Hq, Er.
  rewrite ltb_spec, Er, Prim2SF_42. clear Er.
  remember 5910974510923776%positive as m42 eqn:E42.
  remember (Zpos (digits2_pos p)) as d eqn:Ed.
  pose proof (digits2_bounds p) as [Hl Hu]. rewrite <- Ed in Hl, Hu.
  assert (Hd : 6 <= d).
  { destruct (Z_le_gt_dec 6 d); [assumption|].
    assert (2 ^ d <= 2 ^ 5) by (apply Z.pow_le_mono_r; lia).
    replace (2 ^ 5) with 32 in H by reflexivity. lia. }
  remember (Z.max 0 (- fexp64 (d - 1))) as s eqn:Es.
  assert (Hs : s = Z.max 0 (54 - d))
    by (rewrite Es; unfold SpecFloat.fexp, SpecFloat.emin, prec, emax; lia).
  clear Es.
  assert (Hdq : Zpos (digits2_pos q) = d + s)
    by (rewrite Ed; apply digits2_mul_pow2; [lia | exact Hq]).
  pose proof (binary_round_aux_lower q (- s) loc_Exact) as Hr.
  cbv zeta in Hr. rewrite Hdq in Hr.
  replace (d + s + - s) with d in Hr by lia.
  assert (He1 : Z.max (- s) (fexp64 d) = d - 53)
    by (rewrite Hs; unfold SpecFloat.fexp, SpecFloat.emin, prec, emax; lia).
  rewrite He1 in Hr.
  remember (d - 53 - - s) as k eqn:Ek.
  assert (Hk : 0 <= k <= d + s - 1) by lia.
  assert (Hpk : 0 < 2 ^ k) by (apply Z.pow_pos_nonneg; lia).
  assert (Hm1 : 0 < Zpos q / 2 ^ k).
  { apply Z.lt_le_trans with 1; [lia|]. apply Z.div_le_lower_bound; [exact Hpk|].
    rewrite Z.mul_1_r, Hq.
    apply Z.le_trans with (2 ^ (d - 1) * 2 ^ s).
    - rewrite <- Z.pow_add_r by lia. apply Z.pow_le_mono_r; lia.
    - apply Z.mul_le_mono_nonneg_r; [apply Z.pow_nonneg; lia | exact Hl]. }
  destruct (Hr Hm1) as [-> | (m3 & e3 & -> & He3 & Hm3)]; [reflexivity|].
  unfold SFltb. cbn [SFcompare].
  destruct (Z.compare_spec e3 (-47)) as [Heq|Hlt|Hgt]; [|lia|reflexivity].
  assert (Hd6 : d = 6) by lia.
  assert (Hs48 : s = 48) by lia.
  assert (Hk1 : k = 1) by lia.
  assert (Zpos m42 <= Zpos m3).
  { apply Z.le_trans with (Zpos q / 2 ^ k); [|apply Hm3; lia].
    apply Z.div_le_lower_bound; [exact Hpk|].
    rewrite Hq, Hk1, Hs48.
    replace (2 ^ 48) with 281474976710656 by (vm_compute; reflexivity).
    replace (2 ^ 1) with 2 by reflexivity.
    lia. }
  rewrite compare_cont_Eq.
  destruct (Pos.compare_spec m3 m42); try reflexivity. lia.
Qed.

End Binary64Division.

Section Numerals.
Import Binary64Division.
Local Open Scope string_scope.

Lemma isDigit_value c : isDigit c = true -> (0 <= digit_value c <= 9)%Z.
Proof.
  destruct c as [[] [] [] [] [] [] [] []]; intros H; try discriminate H;
    vm_compute; split; discriminate.
Qed.

Lemma isDigit_not_point c : isDigit c = true -> Ascii.eqb c "." = false.
Proof.
  destruct c as [[] [] [] [] [] [] [] []]; intros H; try discriminate H; reflexivity.
Qed.

Lemma digits_value_lower s : forall acc,
  all_digits s = true -> (0 <= acc)%Z -> (acc <= digits_value acc s)%Z.
Proof.
  induction s as [|c s IH]; intros acc H Hacc; cbn [digits_value all_digits] in *; [lia|].
  apply andb_true_iff in H. destruct H as [Hc H].
  pose proof (isDigit_value c Hc).
  specialize (IH (10 * acc + digit_value c)%Z H ltac:(lia)). lia.
Qed.

Lemma split_point_digits s : all_digits s = true -> split_point s = (s, EmptyString).
Proof.
  induction s as [|c s IH]; cbn; [reflexivity|].
  intros H. apply andb_true_iff in H. destruct H as [Hc H].
  now rewrite (isDigit_not_point c Hc), (IH H).
Qed.

Lemma fullmatch_digits s :
  s <> EmptyString -> all_digits s = true -> fullmatch StrUnsignedDecimalLiteral s = true.
Proof.
  intros Hn H. apply fullmatch_matches, matches_StrUnsignedDecimalLiteral.
  left. now split.
Qed.

(** The Number of a non-empty string of digits. *)
Lemma StringToNumber_digits s :
  s <> EmptyString -> all_digits s = true ->
  StringToNumber s = RoundMV (digits_value 0 s) 0.
Proof.
  intros Hn H. unfold StringToNumber.
  destruct s as [|c s]; [contradiction|].
  rewrite (fullmatch_digits _ Hn H), (split_point_digits _ H), append_nil_r.
  reflexivity.
Qed.

Lemma RoundMV_small n :
  (0 <= n <= 41)%Z -> RoundMV n 0 = of_Z n /\ PrimFloat.ltb (RoundMV n 0) 42 = true.
Proof.
  intros Hn. pattern n. apply range_cases; [clear n Hn | exact Hn]. intros k Hk.
  do 42 (destruct k as [|k]; [split; vm_compute; reflexivity|]).
  lia.
Qed.

Lemma StringToNumber_lt_42 s :
  s <> EmptyString -> all_digits s = true ->
  PrimFloat.ltb (StringToNumber s) 42 = (digits_value 0 s <=? 41)%Z.
Proof.
  intros Hn H. rewrite (StringToNumber_digits s Hn H).
  pose proof (digits_value_lower s 0 H ltac:(lia)) as Hv.
  destruct (Z.leb_spec (digits_value 0 s) 41) as [Hle|Hgt].
  - now apply RoundMV_small.
  - apply RoundMV_ge_42. lia.
Qed.

End Numerals.

(** ** The Number of a decimal text

    The Number of a text with a fraction is the rounded quotient of two
    positive integers.  The quotient [SFdiv] computes has enough bits for
    the rounding to give a valid float, and the float is not negative. *)

Module Quotient.
Import Binary64 Binary64Division.
Local Open Scope Z_scope.

Local Abbreviation fexp64 := (SpecFloat.fexp prec emax).

(** Rounding a mantissa that is not negative gives no NaN and keeps the
    sign. *)
Lemma binary_round_aux_sign s m e l :
  0 <= m ->
  match binary_round_aux prec emax s m e l with
  | S754_nan => False
  | S754_zero s' | S754_infinity s' | S754_finite s' _ _ => s' = s
  end.
Proof.
  intros Hm. unfold binary_round_aux.
  destruct (shr_fexp_spec m e l Hm) as [Em _].
  destruct (shr_fexp prec emax m e l) as [mrs' e']. cbn [fst] in Em.
  set (m1 := shr_m mrs') in *.
  pose proof (round_nearest_even_bounds m1 (loc_of_shr_record mrs')) as Hm2.
  set (m2 := round_nearest_even m1 (loc_of_shr_record mrs')) in *.
  assert (H1 : 0 <= m1).
  { rewrite Em. apply Z.div_pos; [exact Hm|]. apply Z.pow_pos_nonneg; lia. }
  assert (H2 : 0 <= m2) by lia.
  destruct (shr_fexp_spec m2 e' loc_Exact H2) as [Em' _].
  destruct (shr_fexp prec emax m2 e' loc_Exact) as [mrs'' e'']. cbn [fst] in Em'.
  assert (H3 : 0 <= shr_m mrs'').
  { rewrite Em'. apply Z.div_pos; [exact H2|]. apply Z.pow_pos_nonneg; lia. }
  destruct (shr_m mrs'') as [|q|q]; [reflexivity| |lia].
  destruct (e'' <=? emax - prec); reflexivity.
Qed.

Lemma binary_round_aux_zero_valid s l :
  valid_binary (binary_round_aux prec emax s 0 (-1074) l) = true.
Proof. destruct l as [|[]]; reflexivity. Qed.

(** The quotient of two positive integers, as [SFdiv] computes it, is a
    valid float that is not negative. *)
Lemma SFdiv_pos p t :
  let F := SFdiv prec emax (S754_finite false p 0) (S754_finite false t 0) in
  valid_binary F = true /\
  match F with
  | S754_nan => False
  | S754_zero s | S754_infinity s | S754_finite s _ _ => s = false
  end.
Proof.
  unfold SFdiv, SFdiv_core_binary. cbn [xorb Zdigits2].
  set (d1 := Zpos (digits2_pos p)). set (d2 := Zpos (digits2_pos t)).
  replace (d1 + 0 - (d2 + 0)) with (d1 - d2) by lia.
  replace (0 - 0) with 0 by lia.
  set (e' := Z.min (fexp64 (d1 - d2)) 0).
  replace (0 - e') with (- e') by lia.
  assert (He0 : e' <= 0) by (unfold e'; lia).
  assert (Hemin : -1074 <= e').
  { unfold e'. pose proof (fexp64_ge_emin (d1 - d2)). lia. }
  assert (Hm' : match - e' with
                | Zpos _ => Z.shiftl (Zpos p) (- e')
                | 0 => Zpos p
                | Zneg _ => 0
                end = Zpos p * 2 ^ (- e')).
  { destruct (- e') as [|k|k] eqn:Ek; try lia.
    now rewrite Z.shiftl_mul_pow2 by lia. }
  rewrite Hm'. clear Hm'.
  pose proof (Z_div_mod (Zpos p * 2 ^ (- e')) (Zpos t) ltac:(lia)) as Hdm.
  destruct (Z.div_eucl (Zpos p * 2 ^ (- e')) (Zpos t)) as [q r].
  destruct Hdm as [Hq Hr].
  set (l := new_location (Zpos t) r).
  pose proof (digits2_bounds p) as [Hpl Hpu]. fold d1 in Hpl, Hpu.
  pose proof (digits2_bounds t) as [Htl Htu]. fold d2 in Htl, Htu.
  assert (Hd1 : 1 <= d1) by (unfold d1; lia).
  assert (Hd2 : 1 <= d2) by (unfold d2; lia).
  assert (Hs : 0 < 2 ^ (- e')) by (apply Z.pow_pos_nonneg; lia).
  assert (Hq0 : 0 <= q) by nia.
  (* the quotient has at least [d1 - d2 - e'] bits *)
  assert (Hbits : 0 <= d1 - d2 - e' - 1 -> 2 ^ (d1 - d2 - e' - 1) <= q).
  { intros Ha.
    assert (Hlow : 2 ^ (d1 - 1) * 2 ^ (- e') <= Zpos p * 2 ^ (- e'))
      by (apply Z.mul_le_mono_nonneg_r; lia).
    rewrite <- Z.pow_add_r in Hlow by lia.
    assert (Hsplit : 2 ^ (d1 - 1 + - e') = 2 ^ (d1 - d2 - e' - 1) * 2 ^ d2).
    { rewrite <- Z.pow_add_r by lia. f_equal. lia. }
    assert (Hpa : 0 < 2 ^ (d1 - d2 - e' - 1)) by (apply Z.pow_pos_nonneg; lia).
    destruct (Z_le_gt_dec (2 ^ (d1 - d2 - e' - 1)) q) as [Hle|Hgt]; [exact Hle|].
    exfalso.
    assert (q + 1 <= 2 ^ (d1 - d2 - e' - 1)) by lia.
    assert (Zpos t * (q + 1) <= 2 ^ d2 * 2 ^ (d1 - d2 - e' - 1)) by nia.
    nia. }
  split.
  - destruct q as [|q|q]; [|
      |lia].
    + (* underflow: the exponent is the least one *)
      assert (e' = -1074).
      { destruct (Z.eq_dec e' (-1074)) as [E|E]; [exact E|]. exfalso.
        assert (Hx : 0 <= d1 - d2 - e' - 1).
        { revert E. unfold e', SpecFloat.fexp, SpecFloat.emin, prec, emax. lia. }
        specialize (Hbits Hx).
        assert (0 < 2 ^ (d1 - d2 - e' - 1)) by (apply Z.pow_pos_nonneg; lia).
        lia. }
      subst l. rewrite H. apply binary_round_aux_zero_valid.
    + apply binary_round_aux_valid.
      assert (Hdq : d1 - d2 - e' <= Zpos (digits2_pos q)).
      { destruct (Z_le_gt_dec (d1 - d2 - e') (Zpos (digits2_pos q))) as [Hle|Hgt];
          [exact Hle|]. exfalso.
        pose proof (digits2_bounds q) as [_ Hqu].
        assert (Hx : 0 <= d1 - d2 - e' - 1) by lia.
        specialize (Hbits Hx).
        assert (2 ^ Zpos (digits2_pos q) <= 2 ^ (d1 - d2 - e' - 1))
          by (apply Z.pow_le_mono_r; lia).
        lia. }
      apply Z.le_trans with (fexp64 (d1 - d2)); [unfold e'; lia|].
      apply fexp64_mono. lia.
  - apply binary_round_aux_sign. exact Hq0.
Qed.

End Quotient.

(** The Number of a decimal text is not NaN and not negative. *)
Lemma RoundMV_nonneg n k : (0 <=? RoundMV n k) = true.
Proof.
  unfold RoundMV. destruct n as [|p|p]; try reflexivity.
  destruct (Quotient.SFdiv_pos p (Z.to_pos (10 ^ Z.of_nat k))) as [Hv Hs].
  cbv zeta in Hv, Hs.
  rewrite leb_spec, (Prim2SF_SF2Prim _ Hv).
  destruct (SFdiv prec emax (S754_finite false p 0)
              (S754_finite false (Z.to_pos (10 ^ Z.of_nat k)) 0)) as [s|s| |s m e];
    try contradiction; subst s; reflexivity.
Qed.

Lemma StringToNumber_nonneg s :
  fullmatch floatPattern s = true -> (0 <=? StringToNumber s) = true.
Proof.
  intros H. rewrite <- fullmatch_same_language in H.
  unfold StringToNumber. destruct s as [|c s]; [reflexivity|].
  rewrite H. destruct (split_point (String c s)) as [i f]. apply RoundMV_nonneg.
Qed.

(** ** Line 117 on a string key

    A string that names a property every object inherits is no key of the
    table, yet line 117 does not throw on it: [NTerzaghi["constructor"]] is
    a function, and its element 0 is [undefined].  A numeral out of range
    or with a leading zero reads [undefined] and throws.  No inherited name
    is a string of digits, so on the texts [isValidInt] accepts the read is
    decided by the keys of the table alone. *)

Example inherited_name_reads_undefined :
  readFactors "constructor" = Normal (None, None, None) /\
  readFactors "42" = Throw TypeError /\
  readFactors "030" = Throw TypeError /\
  readFactors "30" = Normal (Some 37.2, Some 22.5, Some 20.1).
Proof. repeat split. Qed.

Lemma readFactors_digits (key : string) :
  all_digits key = true ->
  readFactors key
  = match OnStrings.get NTerzaghi key with
    | Some (Nc, Nq, Ng) => Normal (Some Nc, Some Nq, Some Ng)
    | None => Throw TypeError
    end.
Proof.
  intros Hd. unfold readFactors, NTerzaghi_at.
  destruct (OnStrings.get NTerzaghi key) as [[[nc nq] ng]|]; [reflexivity|].
  destruct (existsb (String.eqb key) ObjectPrototype) eqn:E; [|reflexivity].
  exfalso. apply existsb_exists in E. destruct E as (n & Hn & He).
  apply String.eqb_eq in He. subst n. cbn [ObjectPrototype In] in Hn.
  repeat (destruct Hn as [<- | Hn]; [discriminate Hd|]). contradiction.
Qed.

(** ** Validators, flags and the table read with a string key *)

Section FormLemmas.
Import BearingCapacityApp.
Local Open Scope string_scope.

Lemma getFlag_setFlag e k b k' :
  getFlag (setFlag e k b) k' = if String.eqb k k' then Some b else getFlag e k'.
Proof.
  induction e as [|[k0 b0] e IH]; cbn.
  - now rewrite String.eqb_sym.
  - destruct (String.eqb_spec k0 k) as [->|Hk]; cbn.
    + destruct (String.eqb k k'); reflexivity.
    + rewrite IH. destruct (String.eqb_spec k0 k') as [->|Hk'].
      * apply String.eqb_neq in Hk. rewrite String.eqb_sym in Hk. now rewrite Hk.
      * reflexivity.
Qed.

Lemma isValidFloat_eq s p st :
  isValidFloat s p st =
  (fullmatch floatPattern s,
   withError st (setFlag (error st) p (negb (fullmatch floatPattern s)))).
Proof. unfold isValidFloat, search. now destruct (fullmatch floatPattern s). Qed.

Lemma isValidInt_eq s p st :
  isValidInt s p st =
  (fullmatch intPattern s && PrimFloat.ltb (StringToNumber s) 42,
   withError st (setFlag (error st) p
                   (negb (fullmatch intPattern s && PrimFloat.ltb (StringToNumber s) 42)))).
Proof.
  unfold isValidInt, search. destruct (fullmatch intPattern s); cbn; [|reflexivity].
  now destruct (PrimFloat.ltb (StringToNumber s) 42).
Qed.

Lemma fullmatch_floatPattern_nonempty s : fullmatch floatPattern s = true -> s <> EmptyString.
Proof. intros H ->. discriminate H. Qed.

Lemma fullmatch_intPattern_nonempty s : fullmatch intPattern s = true -> s <> EmptyString.
Proof. intros H ->. discriminate H. Qed.

Lemma truthy_Some s : truthy (Some s) = negb (String.eqb s EmptyString).
Proof. reflexivity. Qed.

Lemma truthy_valid s : s <> EmptyString -> truthy (Some s) = true.
Proof. intros H. cbn. apply String.eqb_neq in H. now rewrite H. Qed.

Lemma flagsOnly_isValidFloat s p :
  flagsOnly (isValidFloat s p) (fullmatch floatPattern s).
Proof. intros st. rewrite isValidFloat_eq. eexists. reflexivity. Qed.

Lemma flagsOnly_isValidInt s p :
  flagsOnly (isValidInt s p)
            (fullmatch intPattern s && PrimFloat.ltb (StringToNumber s) 42).
Proof. intros st. rewrite isValidInt_eq. eexists. reflexivity. Qed.

Lemma flagsOnly_andAlso p q bp bq :
  flagsOnly p bp -> flagsOnly q bq -> flagsOnly (andAlso p q) (bp && bq).
Proof.
  intros Hp Hq st. destruct (Hp st) as [e E]. unfold andAlso. rewrite E.
  destruct bp; cbn.
  - destruct (Hq (withError st e)) as [e' E']. rewrite E'. exists e'. reflexivity.
  - exists e. reflexivity.
Qed.

Lemma allFieldsAreDefined_eq st :
  exists e,
    allFieldsAreDefined st =
    (truthy (cohesion st) && truthy (phi st) && truthy (unitWeight st)
     && truthy (depth st) && truthy (width st) && truthy (groundwaterDepth st)
     && truthy (FS st), withError st e).
Proof.
  unfold allFieldsAreDefined.
  destruct (truthy (cohesion st)), (truthy (phi st)), (truthy (unitWeight st)),
    (truthy (depth st)), (truthy (width st)), (truthy (groundwaterDepth st)),
    (truthy (FS st)); cbn; eexists; reflexivity.
Qed.

(** The chain of validators of [handleCalculateBearingCapacity] decides
    [inputsValid] and changes nothing but the error flags. *)
Lemma validators_chain st c ph uw d w gw fsv :
  cohesion st = Some c -> phi st = Some ph -> unitWeight st = Some uw ->
  depth st = Some d -> width st = Some w -> groundwaterDepth st = Some gw ->
  FS st = Some fsv ->
  exists e,
    andAlso allFieldsAreDefined
     (andAlso (isValidFloat c "cohesion")
      (andAlso (isValidInt ph "phi")
       (andAlso (isValidFloat uw "unitWeight")
        (andAlso (isValidFloat d "depth")
         (andAlso (isValidFloat w "width")
          (andAlso (isValidFloat gw "groundwaterDepth")
                   (isValidFloat fsv "FS"))))))) st
    = (inputsValid st, withError st e).
Proof.
  intros Hc Hph Huw Hd Hw Hgw Hfs.
  pose proof (flagsOnly_andAlso _ _ _ _ (flagsOnly_isValidFloat c "cohesion")
    (flagsOnly_andAlso _ _ _ _ (flagsOnly_isValidInt ph "phi")
    (flagsOnly_andAlso _ _ _ _ (flagsOnly_isValidFloat uw "unitWeight")
    (flagsOnly_andAlso _ _ _ _ (flagsOnly_isValidFloat d "depth")
    (flagsOnly_andAlso _ _ _ _ (flagsOnly_isValidFloat w "width")
    (flagsOnly_andAlso _ _ _ _ (flagsOnly_isValidFloat gw "groundwaterDepth")
                               (flagsOnly_isValidFloat fsv "FS"))))))) as Hrest.
  destruct (allFieldsAreDefined_eq st) as [e0 E0].
  unfold andAlso at 1. rewrite E0, Hc, Hph, Huw, Hd, Hw, Hgw, Hfs.
  unfold inputsValid, formTexts. rewrite Hc, Hph, Huw, Hd, Hw, Hgw, Hfs.
  set (vc := fullmatch floatPattern c) in *.
  set (vph := fullmatch intPattern ph) in *.
  set (vlt := PrimFloat.ltb (StringToNumber ph) 42) in *.
  set (vuw := fullmatch floatPattern uw) in *.
  set (vd := fullmatch floatPattern d) in *.
  set (vw := fullmatch floatPattern w) in *.
  set (vgw := fullmatch floatPattern gw) in *.
  set (vfs := fullmatch floatPattern fsv) in *.
  assert (Tc : vc = true -> truthy (Some c) = true)
    by (intros H; apply truthy_valid; now apply fullmatch_floatPattern_nonempty).
  assert (Tph : vph = true -> truthy (Some ph) = true)
    by (intros H; apply truthy_valid; now apply fullmatch_intPattern_nonempty).
  assert (Tuw : vuw = true -> truthy (Some uw) = true)
    by (intros H; apply truthy_valid; now apply fullmatch_floatPattern_nonempty).
  assert (Td : vd = true -> truthy (Some d) = true)
    by (intros H; apply truthy_valid; now apply fullmatch_floatPattern_nonempty).
  assert (Tw : vw = true -> truthy (Some w) = true)
    by (intros H; apply truthy_valid; now apply fullmatch_floatPattern_nonempty).
  assert (Tgw : vgw = true -> truthy (Some gw) = true)
    by (intros H; apply truthy_valid; now apply fullmatch_floatPattern_nonempty).
  assert (Tfs : vfs = true -> truthy (Some fsv) = true)
    by (intros H; apply truthy_valid; now apply fullmatch_floatPattern_nonempty).
  destruct (Hrest (withError st e0)) as [e1 E1].
  destruct (truthy (Some c) && truthy (Some ph) && truthy (Some uw) && truthy (Some d)
            && truthy (Some w) && truthy (Some gw) && truthy (Some fsv)) eqn:Ht.
  - rewrite E1. exists e1. f_equal.
    destruct vc, vph, vlt, vuw, vd, vw, vgw, vfs; reflexivity.
  - exists e0. f_equal. symmetry.
    destruct vc; [rewrite Tc in Ht by reflexivity|reflexivity].
    destruct vph; [rewrite Tph in Ht by reflexivity|reflexivity].
    destruct vlt; [|reflexivity].
    destruct vuw; [rewrite Tuw in Ht by reflexivity|reflexivity].
    destruct vd; [rewrite Td in Ht by reflexivity|reflexivity].
    destruct vw; [rewrite Tw in Ht by reflexivity|reflexivity].
    destruct vgw; [rewrite Tgw in Ht by reflexivity|reflexivity].
    destruct vfs; [rewrite Tfs in Ht by reflexivity|reflexivity].
    discriminate Ht.
Qed.

Lemma get_numeral k :
  (0 <= k <= 41)%Z ->
  OnStrings.get NTerzaghi (numeral k) = entry k /\ entry k <> None /\
  digits_value 0 (numeral k) = k.
Proof.
  intros Hk. pattern k. apply range_cases; [clear k Hk | exact Hk]. intros n Hn.
  do 42 (destruct n as [|n];
         [split; [vm_compute; reflexivity | split; [discriminate | reflexivity]]|]).
  lia.
Qed.

Lemma get_Some_key t ph row :
  OnStrings.get t ph = Some row -> exists k, In k (map fst t) /\ ph = numeral k.
Proof.
  induction t as [|[k r] t IH]; cbn; [discriminate|].
  destruct (String.eqb_spec ph (numeral k)) as [->|Hne].
  - intros _. exists k. auto.
  - intros H. destruct (IH H) as (k' & Hin & E). exists k'. auto.
Qed.

(** A string of digits of value at most 41 is a key of the table exactly
    when it is the numeral of its value, with no leading zero. *)
Lemma get_digits ph :
  (0 <= digits_value 0 ph <= 41)%Z ->
  (ph = numeral (digits_value 0 ph) ->
   exists nc nq ng, OnStrings.get NTerzaghi ph = Some (nc, nq, ng)) /\
  (ph <> numeral (digits_value 0 ph) -> OnStrings.get NTerzaghi ph = None).
Proof.
  intros Hv. split.
  - intros E. destruct (get_numeral _ Hv) as (Hg & Hn & _).
    rewrite <- E in Hg. rewrite Hg.
    destruct (entry (digits_value 0 ph)) as [[[nc nq] ng]|]; [|contradiction].
    now exists nc, nq, ng.
  - intros Hne. destruct (OnStrings.get NTerzaghi ph) as [row|] eqn:E; [|reflexivity].
    exfalso. apply get_Some_key in E. destruct E as (k & Hin & E).
    apply keys_range in Hin. destruct (get_numeral k Hin) as (_ & _ & Hk).
    apply Hne. rewrite E at 2. now rewrite Hk.
Qed.

Lemma validInt_inv ph :
  fullmatch intPattern ph && PrimFloat.ltb (StringToNumber ph) 42 = true ->
  ph <> EmptyString /\ all_digits ph = true /\ (0 <= digits_value 0 ph <= 41)%Z.
Proof.
  intros H. apply andb_true_iff in H. destruct H as [Hm Hlt].
  apply fullmatch_matches, matches_plus_digit in Hm. destruct Hm as [Hn Hd].
  rewrite (StringToNumber_lt_42 ph Hn Hd) in Hlt. apply Z.leb_le in Hlt.
  pose proof (digits_value_lower ph 0 Hd ltac:(lia)). auto.
Qed.

Lemma inputsValid_inv st :
  inputsValid st = true ->
  exists c ph uw d w gw fsv,
    cohesion st = Some c /\ phi st = Some ph /\ unitWeight st = Some uw /\
    depth st = Some d /\ width st = Some w /\ groundwaterDepth st = Some gw /\
    FS st = Some fsv /\ formTexts c ph uw d w gw fsv = true.
Proof.
  unfold inputsValid.
  destruct (cohesion st) as [c|]; [|discriminate].
  destruct (phi st) as [ph|]; [|discriminate].
  destruct (unitWeight st) as [uw|]; [|discriminate].
  destruct (depth st) as [d|]; [|discriminate].
  destruct (width st) as [w|]; [|discriminate].
  destruct (groundwaterDepth st) as [gw|]; [|discriminate].
  destruct (FS st) as [fsv|]; [|discriminate].
  intros H. exists c, ph, uw, d, w, gw, fsv. repeat split; assumption.
Qed.

Lemma formTexts_inv c ph uw d w gw fsv :
  formTexts c ph uw d w gw fsv = true ->
  fullmatch floatPattern c = true /\
  fullmatch intPattern ph && PrimFloat.ltb (StringToNumber ph) 42 = true /\
  fullmatch floatPattern uw = true /\ fullmatch floatPattern d = true /\
  fullmatch floatPattern w = true /\ fullmatch floatPattern gw = true /\
  fullmatch floatPattern fsv = true.
Proof.
  unfold formTexts. intros H.
  repeat (apply andb_true_iff in H; destruct H as [H ?]). repeat split; assumption.
Qed.

Lemma handleCalculate_invalid element st :
  inputsValid st = false ->
  exists e,
    handleCalculateBearingCapacity element st = Normal (cannotEvaluate (withError st e)).
Proof.
  intros Hv. unfold handleCalculateBearingCapacity.
  destruct (allFieldsAreDefined_eq st) as [e0 E0].
  destruct (cohesion st) as [c|] eqn:Hc; [|rewrite E0; now exists e0].
  destruct (phi st) as [ph|] eqn:Hph; [|rewrite E0; now exists e0].
  destruct (unitWeight st) as [uw|] eqn:Huw; [|rewrite E0; now exists e0].
  destruct (depth st) as [d|] eqn:Hd; [|rewrite E0; now exists e0].
  destruct (width st) as [w|] eqn:Hw; [|rewrite E0; now exists e0].
  destruct (groundwaterDepth st) as [gw|] eqn:Hgw; [|rewrite E0; now exists e0].
  destruct (FS st) as [fsv|] eqn:Hfs; [|rewrite E0; now exists e0].
  destruct (validators_chain st c ph uw d w gw fsv Hc Hph Huw Hd Hw Hgw Hfs) as [e E].
  rewrite E, Hv. now exists e.
Qed.

Lemma handleCalculate_valid element st c ph uw d w gw fsv :
  cohesion st = Some c -> phi st = Some ph -> unitWeight st = Some uw ->
  depth st = Some d -> width st = Some w -> groundwaterDepth st = Some gw ->
  FS st = Some fsv -> inputsValid st = true ->
  exists e,
    handleCalculateBearingCapacity element st =
    match OnStrings.constructor c ph d uw w (getRadioValue element) gw fsv with
    | Throw err => Throw err
    | Normal result =>
        Normal
          {| shape := getRadioValue element; cohesion := Some c; phi := Some ph;
             unitWeight := Some uw; depth := Some d; width := Some w;
             groundwaterDepth := Some gw; fs := fs st; FS := Some fsv;
             renderedFS := Str fsv;
             bearingCapacity := Some (OnStrings.bearingCapacity result);
             allowableCapacity := Some (OnStrings.allowableCapacity result);
             equation := Some (OnStrings.equation result);
             calculated := true;
             error := setFlag e "cannotEvaluate" false |}
    end.
Proof.
  intros Hc Hph Huw Hd Hw Hgw Hfs Hv. unfold handleCalculateBearingCapacity.
  destruct (validators_chain st c ph uw d w gw fsv Hc Hph Huw Hd Hw Hgw Hfs) as [e E].
  rewrite Hc, Hph, Huw, Hd, Hw, Hgw, Hfs, E, Hv. exists e.
  destruct (OnStrings.constructor c ph d uw w (getRadioValue element) gw fsv);
    [|reflexivity].
  cbn. now rewrite Hc, Hph, Huw, Hd, Hw, Hgw, Hfs.
Qed.

(** ** The order of strings *)

Lemma ascii_compare_refl c : Ascii.compare c c = Eq.
Proof. unfold Ascii.compare. apply N.compare_refl. Qed.

Lemma string_compare_refl s : String.compare s s = Eq.
Proof. induction s as [|c s IH]; cbn; [reflexivity|]. now rewrite ascii_compare_refl. Qed.

Lemma string_compare_app d a b : String.compare (d ++ a) (d ++ b) = String.compare a b.
Proof. induction d as [|c d IH]; cbn; [reflexivity|]. now rewrite ascii_compare_refl. Qed.

Lemma string_ltb_extend d t : t <> EmptyString -> String.ltb d (d ++ t) = true.
Proof.
  intros Ht. unfold String.ltb.
  rewrite <- (append_nil_r d) at 1. rewrite string_compare_app.
  destruct t; [contradiction | reflexivity].
Qed.

Lemma string_leb_refl s : String.leb s s = true.
Proof. unfold String.leb. now rewrite string_compare_refl. Qed.

Lemma string_leb_ltb s t : String.leb s t = negb (String.ltb t s).
Proof.
  unfold String.leb, String.ltb. rewrite (String.compare_antisym t s).
  now destruct (String.compare s t).
Qed.

(** A string strictly between [d] and [d ++ w] extends [d]. *)
Lemma string_between d : forall g w,
  String.ltb d g = true -> String.ltb g (d ++ w) = true ->
  exists t, g = d ++ t /\ t <> EmptyString /\ String.ltb t w = true.
Proof.
  induction d as [|c d IH]; intros g w H1 H2.
  - exists g. cbn in *. repeat split; [|exact H2].
    intros ->. discriminate H1.
  - destruct g as [|c' g]; [discriminate H1|].
    unfold String.ltb in H1, H2. cbn in H1, H2.
    rewrite (Ascii.compare_antisym c' c) in H2.
    destruct (Ascii.compare c c') eqn:Ec; cbn in H2; try discriminate.
    apply Ascii.compare_eq_iff in Ec. subst c'.
    destruct (IH g w) as (t & -> & Ht & Hlt); [exact H1 | exact H2 |].
    exists t. repeat split; assumption.
Qed.

Lemma formTexts_nonempty c ph uw d w gw fsv :
  formTexts c ph uw d w gw fsv = true -> gw <> EmptyString.
Proof.
  intros H. apply formTexts_inv in H.
  destruct H as (_ & _ & _ & _ & _ & H & _). now apply fullmatch_floatPattern_nonempty.
Qed.

Lemma ToBooleanV_Str s : s <> EmptyString -> ToBooleanV (Str s) = true.
Proof. intros H. cbn. apply String.eqb_neq in H. now rewrite H. Qed.

Local Open Scope float_scope.

(** The instance built from texts with a non-empty groundwater text. *)
Lemma constructor_texts (c ph uw d w sh gw fsv : string)
    (r : OnStrings.TerzaghiBearingCapacity) :
  gw <> EmptyString ->
  OnStrings.constructor c ph d uw w sh gw fsv = Normal r ->
  OnStrings.groundwaterDepth r = Str gw /\
  OnStrings.effectiveUnitWeight r
  = (if String.leb gw d then Num (StringToNumber uw - 62.4)
     else if String.ltb d gw && String.ltb gw (d ++ w)
          then Num (StringToNumber uw
                    - 62.4 * (1 - (StringToNumber gw - StringToNumber d)
                                  / StringToNumber w))
          else Str uw) /\
  OnStrings.effectiveStress r
  = (if String.leb d gw then StringToNumber uw * StringToNumber d
     else StringToNumber uw * StringToNumber d
          - (StringToNumber d - StringToNumber gw) * 62.4) /\
  OnStrings.get NTerzaghi ph = Some (OnStrings.Nc r, OnStrings.Nq r, OnStrings.Ng r) /\
  (OnStrings.coef1 r, OnStrings.coef2 r, OnStrings.coef3 r,
   OnStrings.equation r, OnStrings.console r) = shapeCoefficients sh /\
  OnStrings.shape r = sh /\
  OnStrings.bearingCapacity r
  = Math_round ((OnStrings.coef1 r * StringToNumber c * OnStrings.Nc r)
                + (OnStrings.coef2 r * OnStrings.effectiveStress r * OnStrings.Nq r)
                + (OnStrings.coef3 r * ToNumberV (OnStrings.effectiveUnitWeight r)
                   * StringToNumber w * OnStrings.Ng r)) /\
  OnStrings.allowableCapacity r
  = Math_round (OnStrings.bearingCapacity r / StringToNumber fsv).
Proof.
  intros Hne H. unfold OnStrings.constructor in H.
  rewrite (ToBooleanV_Str gw Hne) in H. cbn [negb] in H.
  unfold greaterEq in H. cbn [lessEq lessThan ToNumberV] in H.
  unfold unitWeightWater in H.
  destruct (OnStrings.get NTerzaghi ph) as [[[nc nq] ng]|]; [|discriminate H].
  destruct (shapeCoefficients sh) as [[[[c1 c2] c3] eq] out].
  injection H as <-. cbn. repeat split.
Qed.

Lemma constructor_texts_Throw (c ph uw d w sh gw fsv : string) :
  OnStrings.get NTerzaghi ph = None ->
  OnStrings.constructor c ph d uw w sh gw fsv = Throw TypeError.
Proof. intros E. unfold OnStrings.constructor. now rewrite E. Qed.

Lemma constructor_texts_Normal (c ph uw d w sh gw fsv : string) nc nq ng :
  OnStrings.get NTerzaghi ph = Some (nc, nq, ng) ->
  exists r, OnStrings.constructor c ph d uw w sh gw fsv = Normal r.
Proof.
  intros E. unfold OnStrings.constructor. rewrite E.
  destruct (shapeCoefficients sh) as [[[[c1 c2] c3] eq] out]. eexists. reflexivity.
Qed.

End FormLemmas.

(** ** Properties of the form *)

Section Form.
Import BearingCapacityApp.

Lemma isDigit_cases c :
  isDigit c = true ->
  In c ["0"; "1"; "2"; "3"; "4"; "5"; "6"; "7"; "8"; "9"]%char.
Proof.
  destruct c as [[] [] [] [] [] [] [] []]; intros H; try discriminate H;
    cbn; repeat (try (left; reflexivity); right).
Qed.

Lemma digits_value_scale s : forall acc,
  all_digits s = true -> (0 <= acc)%Z -> s <> EmptyString ->
  (10 * acc <= digits_value acc s)%Z.
Proof.
  destruct s as [|c s]; intros acc H Hacc Hn; [contradiction|].
  cbn [digits_value all_digits] in *.
  apply andb_true_iff in H. destruct H as [Hc H].
  pose proof (isDigit_value c Hc).
  pose proof (digits_value_lower s (10 * acc + digit_value c)%Z H ltac:(lia)). lia.
Qed.

Lemma numeral_no_leading_zero k :
  (0 <= k <= 41)%Z -> leadingZero (numeral k) = false.
Proof.
  intros Hk. pattern k. apply range_cases; [clear k Hk | exact Hk]. intros n Hn.
  do 42 (destruct n as [|n]; [vm_compute; reflexivity|]).
  lia.
Qed.

(** Among the texts [isValidInt] accepts, the keys of the table are those
    without a leading zero. *)
Lemma canonical_numeral ph :
  ph <> EmptyString -> all_digits ph = true -> (0 <= digits_value 0 ph <= 41)%Z ->
  (ph = numeral (digits_value 0 ph) <-> leadingZero ph = false).
Proof.
  intros Hn Hd Hv. split.
  - intros E. rewrite E. now apply numeral_no_leading_zero.
  - intros Hz. destruct ph as [|a [|b rest]]; [contradiction| |].
    + cbn [all_digits] in Hd. apply andb_true_iff in Hd. destruct Hd as [Ha _].
      apply isDigit_cases in Ha. cbn [In] in Ha.
      repeat (destruct Ha as [<- | Ha]; [vm_compute; reflexivity|]). contradiction.
    + cbn [all_digits] in Hd. apply andb_true_iff in Hd. destruct Hd as [Ha Hd].
      apply andb_true_iff in Hd. destruct Hd as [Hb Hd].
      cbn [leadingZero] in Hz.
      destruct rest as [|c rest].
      * apply isDigit_cases in Ha, Hb. cbn [In] in Ha, Hb.
        repeat (destruct Ha as [<- | Ha];
                [try discriminate Hz;
                 repeat (destruct Hb as [<- | Hb];
                         [first [vm_compute; reflexivity
                                |exfalso; vm_compute in Hv; destruct Hv as [_ Hv];
                                 apply Hv; reflexivity]|]);
                 contradiction|]).
        contradiction.
      * exfalso.
        change (digits_value 0 (String a (String b (String c rest))))
          with (digits_value (10 * (10 * 0 + digit_value a) + digit_value b)%Z
                             (String c rest)) in Hv.
        pose proof (isDigit_value a Ha) as Va. pose proof (isDigit_value b Hb) as Vb.
        assert (Na : (1 <= digit_value a)%Z).
        { apply isDigit_cases in Ha. cbn [In] in Ha.
          repeat (destruct Ha as [<- | Ha];
                  [first [discriminate Hz | vm_compute; discriminate]|]).
          contradiction. }
        pose proof (digits_value_scale (String c rest)
                      (10 * (10 * 0 + digit_value a) + digit_value b)%Z Hd
                      ltac:(lia) ltac:(discriminate)) as Hs.
        lia.
Qed.

Lemma constructor_texts_defined c ph uw d w sh gw fsv :
  formTexts c ph uw d w gw fsv = true ->
  (leadingZero ph = false ->
   exists r, OnStrings.constructor c ph d uw w sh gw fsv = Normal r) /\
  (leadingZero ph = true ->
   OnStrings.constructor c ph d uw w sh gw fsv = Throw TypeError).
Proof.
  intros Hv. destruct (formTexts_inv _ _ _ _ _ _ _ Hv) as (_ & Hph & _).
  destruct (validInt_inv ph Hph) as (Hn & Hd & Hr).
  destruct (get_digits ph Hr) as [Hyes Hno].
  pose proof (canonical_numeral ph Hn Hd Hr) as Hc. split; intros Hz.
  - destruct (Hyes (proj2 Hc Hz)) as (nc & nq & ng & E).
    now apply (constructor_texts_Normal _ _ _ _ _ _ _ _ nc nq ng).
  - apply constructor_texts_Throw, Hno. intros E. apply Hc in E. congruence.
Qed.

Lemma snd_isValidFloat s p st :
  snd (isValidFloat s p st)
  = withError st (setFlag (error st) p (negb (fullmatch floatPattern s))).
Proof. now rewrite isValidFloat_eq. Qed.

Lemma snd_isValidInt s p st :
  snd (isValidInt s p st)
  = withError st (setFlag (error st) p
      (negb (fullmatch intPattern s && PrimFloat.ltb (StringToNumber s) 42))).
Proof. now rewrite isValidInt_eq. Qed.

Lemma StringToNumber_numeral k :
  (0 <= k <= 41)%Z -> StringToNumber (numeral k) = of_Z k.
Proof.
  intros Hk. pattern k. apply range_cases; [clear k Hk | exact Hk]. intros n Hn.
  do 42 (destruct n as [|n]; [vm_compute; reflexivity|]).
  lia.
Qed.

Lemma allFieldsAreDefined_false st :
  fst (allFieldsAreDefined st) = false ->
  allFieldsAreDefined st
  = (false, withError st (setFlag (error st) "undefinedInput" true)).
Proof.
  unfold allFieldsAreDefined.
  destruct (negb (truthy (cohesion st)) || negb (truthy (phi st))
            || negb (truthy (unitWeight st)) || negb (truthy (depth st))
            || negb (truthy (width st)) || negb (truthy (groundwaterDepth st))
            || negb (truthy (FS st))); [reflexivity | discriminate].
Qed.

(** *** Validators *)

(** X1.  [isValidFloat] returns true exactly on the decimal texts, and leaves the
    opposite of its result in the flag of the parameter. *)
Theorem isValidFloat_decimal_text (s p : string) (st : State) :
  (fst (isValidFloat s p st) = true <-> decimalText s) /\
  getFlag (error (snd (isValidFloat s p st))) p
  = Some (negb (fst (isValidFloat s p st))).
Proof.
  rewrite isValidFloat_eq. cbn [fst snd withError error]. split.
  - rewrite fullmatch_matches. apply matches_floatPattern.
  - rewrite getFlag_setFlag. now rewrite String.eqb_refl.
Qed.

(** X2.  A text that [isValidFloat] accepts denotes a Number that is neither NaN
    nor negative.  It need not be finite: a one followed by 309 zeros is
    accepted and denotes Infinity. *)
Theorem valid_text_nonnegative (s p : string) (st : State) :
  fst (isValidFloat s p st) = true ->
  (0 <=? StringToNumber s) = true /\ (StringToNumber s <? 0) = false.
Proof.
  rewrite isValidFloat_eq. cbn [fst]. intros H.
  pose proof (StringToNumber_nonneg s H) as Hn.
  split; [exact Hn | now apply leb_ltb_false].
Qed.

Lemma valid_text_nonnegative_witness :
  let big := String "1" (String.concat EmptyString (repeat "0"%string 309)) in
  ((0 <=? StringToNumber big) = true /\ (StringToNumber big <? 0) = false) /\
  StringToNumber big = infinity /\
  StringToNumber "1." = 1 /\ StringToNumber ".5" = 0.5 /\ StringToNumber "62.4" = 62.4.
Proof.
  split.
  - apply (valid_text_nonnegative
             (String "1" (String.concat EmptyString (repeat "0"%string 309)))
             "depth" startState).
    vm_compute. reflexivity.
  - repeat split; vm_compute; reflexivity.
Defined.

(** X3.  [isValidInt] returns true exactly on the non-empty digit texts whose
    decimal value is at most 41, leading zeros included. *)
Theorem isValidInt_zero_to_41 (s p : string) (st : State) :
  (fst (isValidInt s p st) = true <->
   s <> EmptyString /\ all_digits s = true /\ (digits_value 0 s <= 41)%Z) /\
  getFlag (error (snd (isValidInt s p st))) p
  = Some (negb (fst (isValidInt s p st))).
Proof.
  rewrite isValidInt_eq. cbn [fst snd withError error]. split.
  - split.
    + intros H. destruct (validInt_inv s H) as (Hn & Hd & Hv). repeat split; [assumption..|lia].
    + intros (Hn & Hd & Hv). apply andb_true_iff. split.
      * apply fullmatch_matches. apply matches_plus_digit. now split.
      * rewrite (StringToNumber_lt_42 s Hn Hd). now apply Z.leb_le.
  - rewrite getFlag_setFlag. now rewrite String.eqb_refl.
Qed.

(** *** [getRadioValue] *)

(** X4.  The value of the first checked button; [continuous] when none is. *)
Theorem getRadioValue_first_checked (before after : list (bool * string)) (v : string) :
  forallb (fun b => negb (fst b)) before = true ->
  getRadioValue (before ++ (true, v) :: after) = v /\
  getRadioValue before = "continuous"%string.
Proof.
  induction before as [|[checked value] before IH]; cbn; [now split|].
  intros H. apply andb_true_iff in H. destruct H as [Hc H].
  destruct checked; [discriminate Hc|]. now apply IH.
Qed.

Lemma getRadioValue_first_checked_witness :
  getRadioValue ([(false, "continuous"%string)] ++
                 (true, "square"%string) :: [(true, "circular"%string)])
  = "square"%string /\
  getRadioValue [(false, "continuous"%string)] = "continuous"%string.
Proof.
  apply (getRadioValue_first_checked [(false, "continuous"%string)]
           [(true, "circular"%string)] "square"). reflexivity.
Defined.

(** X5.  With the three buttons of the form the shape is one of the three the
    switch knows: the default case and its console message are never
    reached. *)
Theorem form_shape_never_defaults (b1 b2 b3 : bool) (c ph uw d w gw fsv : string)
    (r : OnStrings.TerzaghiBearingCapacity) :
  OnStrings.constructor c ph d uw w (getRadioValue (formRadios b1 b2 b3)) gw fsv
  = Normal r ->
  OnStrings.console r = [] /\
  OnStrings.shape r
  = (if b1 then "continuous" else if b2 then "square"
     else if b3 then "circular" else "continuous")%string /\
  (OnStrings.coef1 r, OnStrings.coef2 r, OnStrings.coef3 r)
  = (if b1 then (1, 1, 0.5) else if b2 then (1.3, 1, 0.4)
     else if b3 then (1.3, 1, 0.3) else (1, 1, 0.5)).
Proof.
  intros H. unfold OnStrings.constructor in H.
  destruct (OnStrings.get NTerzaghi ph) as [[[nc nq] ng]|]; [|discriminate H].
  destruct b1, b2, b3; cbn in H; injection H as <-; repeat split.
Qed.

Lemma form_shape_never_defaults_witness :
  exists r,
    OnStrings.constructor "0" "30" "3" "120" "4"
      (getRadioValue (formRadios false false true)) "10" "3" = Normal r /\
    OnStrings.console r = [] /\ OnStrings.shape r = "circular"%string /\
    (OnStrings.coef1 r, OnStrings.coef2 r, OnStrings.coef3 r) = (1.3, 1, 0.3).
Proof.
  destruct (OnStrings.constructor "0" "30" "3" "120" "4"
              (getRadioValue (formRadios false false true)) "10" "3")
    as [r|e] eqn:E.
  - exists r. split; [reflexivity|].
    exact (form_shape_never_defaults false false true _ _ _ _ _ _ _ r E).
  - vm_compute in E. discriminate E.
Defined.

(** *** [handleCalculateBearingCapacity] *)

(** X6.  With a field that is undefined or empty the handler stops at
    [allFieldsAreDefined]: it raises the [undefinedInput] and
    [cannotEvaluate] flags and runs no validator, so every other flag is
    as it was. *)
Theorem calculate_undefined_input (element : list (bool * string)) (st : State) :
  fst (allFieldsAreDefined st) = false ->
  exists st',
    handleCalculateBearingCapacity element st = Normal st' /\
    calculated st' = false /\
    getFlag (error st') "undefinedInput" = Some true /\
    getFlag (error st') "cannotEvaluate" = Some true /\
    forall k : string,
      k <> "undefinedInput"%string -> k <> "cannotEvaluate"%string ->
      getFlag (error st') k = getFlag (error st) k.
Proof.
  intros H. pose proof (allFieldsAreDefined_false st H) as E.
  exists (cannotEvaluate (withError st (setFlag (error st) "undefinedInput" true))).
  split.
  - unfold handleCalculateBearingCapacity.
    destruct (cohesion st); [|now rewrite E].
    destruct (phi st); [|now rewrite E].
    destruct (unitWeight st); [|now rewrite E].
    destruct (depth st); [|now rewrite E].
    destruct (width st); [|now rewrite E].
    destruct (groundwaterDepth st); [|now rewrite E].
    destruct (FS st); [|now rewrite E].
    unfold andAlso at 1. now rewrite E.
  - cbn [calculated error cannotEvaluate withError]. rewrite !getFlag_setFlag.
    split; [reflexivity|]. split; [reflexivity|]. split; [reflexivity|].
    intros k H1 H2.
    assert (E1 : String.eqb "cannotEvaluate" k = false)
      by (apply String.eqb_neq; congruence).
    assert (E2 : String.eqb "undefinedInput" k = false)
      by (apply String.eqb_neq; congruence).
    now rewrite !getFlag_setFlag, E1, E2.
Qed.

Lemma calculate_undefined_input_witness :
  exists st',
    handleCalculateBearingCapacity (formRadios true false false)
      (handlePhi "99" (handleCohesion "-1" startState)) = Normal st' /\
    calculated st' = false /\
    getFlag (error st') "undefinedInput" = Some true /\
    getFlag (error st') "cannotEvaluate" = Some true /\
    getFlag (error st') "unitWeight" = Some false /\
    getFlag (error st') "phi" = Some true.
Proof.
  destruct (calculate_undefined_input (formRadios true false false)
              (handlePhi "99" (handleCohesion "-1" startState)) eq_refl)
    as (st' & E & Hc & Hu & He & Hk).
  exists st'. split; [exact E|]. split; [exact Hc|]. split; [exact Hu|].
  split; [exact He|]. split.
  - rewrite (Hk "unitWeight"%string) by discriminate. reflexivity.
  - rewrite (Hk "phi"%string) by discriminate. reflexivity.
Defined.

(** X7.  With a missing or invalid field the handler never throws and never
    calls the class: it clears [calculated], raises the [cannotEvaluate]
    flag and keeps every field and every earlier result. *)
Theorem calculate_refuses_invalid (element : list (bool * string)) (st : State) :
  inputsValid st = false ->
  exists st',
    handleCalculateBearingCapacity element st = Normal st' /\
    calculated st' = false /\
    getFlag (error st') "cannotEvaluate" = Some true /\
    bearingCapacity st' = bearingCapacity st /\
    allowableCapacity st' = allowableCapacity st /\
    equation st' = equation st /\ renderedFS st' = renderedFS st /\
    shape st' = shape st /\
    (cohesion st', phi st', unitWeight st', depth st', width st',
     groundwaterDepth st', FS st')
    = (cohesion st, phi st, unitWeight st, depth st, width st,
       groundwaterDepth st, FS st).
Proof.
  intros Hv. destruct (handleCalculate_invalid element st Hv) as [e E].
  eexists. split; [exact E|]. cbn.
  rewrite getFlag_setFlag, String.eqb_refl. repeat split.
Qed.

Lemma calculate_refuses_invalid_witness :
  exists st',
    handleCalculateBearingCapacity (formRadios false true false)
      (typed "500" "42" "115" "3.5" "5" "6" "2" startState) = Normal st' /\
    calculated st' = false /\
    getFlag (error st') "cannotEvaluate" = Some true.
Proof.
  destruct (calculate_refuses_invalid (formRadios false true false)
              (typed "500" "42" "115" "3.5" "5" "6" "2" startState) eq_refl)
    as (st' & E & Hc & Hf & _).
  exists st'. repeat split; assumption.
Defined.

(** X8.  With seven valid texts and no leading zero in phi the handler stores
    what the class computed from the texts. *)
Theorem calculate_evaluates (element : list (bool * string)) (st : State) (ph : string) :
  inputsValid st = true -> phi st = Some ph -> leadingZero ph = false ->
  exists (c uw d w gw fsv : string) (r : OnStrings.TerzaghiBearingCapacity)
         (st' : State),
    (cohesion st, unitWeight st, depth st, width st, groundwaterDepth st, FS st)
    = (Some c, Some uw, Some d, Some w, Some gw, Some fsv) /\
    OnStrings.constructor c ph d uw w (getRadioValue element) gw fsv = Normal r /\
    handleCalculateBearingCapacity element st = Normal st' /\
    calculated st' = true /\
    shape st' = getRadioValue element /\
    renderedFS st' = Str fsv /\
    bearingCapacity st' = Some (OnStrings.bearingCapacity r) /\
    allowableCapacity st' = Some (OnStrings.allowableCapacity r) /\
    equation st' = Some (OnStrings.equation r) /\
    getFlag (error st') "cannotEvaluate" = Some false.
Proof.
  intros Hv Hph Hz.
  destruct (inputsValid_inv st Hv)
    as (c & ph' & uw & d & w & gw & fsv & Hc & Hph' & Huw & Hd & Hw & Hgw & Hfs & Ht).
  assert (ph' = ph) by congruence. subst ph'.
  destruct (proj1 (constructor_texts_defined c ph uw d w (getRadioValue element) gw fsv Ht) Hz)
    as [r Er].
  destruct (handleCalculate_valid element st c ph uw d w gw fsv
              Hc Hph Huw Hd Hw Hgw Hfs Hv) as [e E].
  rewrite Er in E.
  exists c, uw, d, w, gw, fsv, r. eexists.
  rewrite Hc, Huw, Hd, Hw, Hgw, Hfs.
  split; [reflexivity|]. split; [exact Er|]. split; [exact E|]. cbn.
  rewrite getFlag_setFlag, String.eqb_refl. repeat split.
Qed.

Lemma calculate_evaluates_witness :
  exists st',
    handleCalculateBearingCapacity (formRadios false false false)
      (typed "0" "30" "120" "3" "4" "8" "3" startState) = Normal st' /\
    calculated st' = true /\
    bearingCapacity st' = Some 12924 /\ allowableCapacity st' = Some 4308.
Proof.
  destruct (calculate_evaluates (formRadios false false false)
              (typed "0" "30" "120" "3" "4" "8" "3" startState) "30"
              eq_refl eq_refl eq_refl)
    as (c & uw & d & w & gw & fsv & r & st' & Hf & Er & E & Hc & _).
  exists st'. split; [exact E|]. split; [exact Hc|].
  vm_compute in E. injection E as <-. split; reflexivity.
Defined.

(** X9.  A phi text with a leading zero passes [isValidInt] but is no key of the
    table: the handler then throws the TypeError of line 117, and in no
    other case. *)
Theorem calculate_throws_on_leading_zero
    (element : list (bool * string)) (st : State) (ph : string) :
  inputsValid st = true -> phi st = Some ph ->
  (handleCalculateBearingCapacity element st = Throw TypeError
   <-> leadingZero ph = true).
Proof.
  intros Hv Hph.
  destruct (inputsValid_inv st Hv)
    as (c & ph' & uw & d & w & gw & fsv & Hc & Hph' & Huw & Hd & Hw & Hgw & Hfs & Ht).
  assert (ph' = ph) by congruence. subst ph'.
  destruct (handleCalculate_valid element st c ph uw d w gw fsv
              Hc Hph Huw Hd Hw Hgw Hfs Hv) as [e E].
  destruct (constructor_texts_defined c ph uw d w (getRadioValue element) gw fsv Ht)
    as [Hyes Hno].
  split.
  - intros HT. destruct (leadingZero ph); [reflexivity|].
    destruct (Hyes eq_refl) as [r Er]. rewrite Er in E. congruence.
  - intros Hz. now rewrite (Hno Hz) in E.
Qed.

Lemma calculate_throws_on_leading_zero_witness :
  handleCalculateBearingCapacity (formRadios false false false)
    (typed "0" "030" "120" "3" "4" "8" "3" startState) = Throw TypeError.
Proof.
  apply (calculate_throws_on_leading_zero (formRadios false false false)
           (typed "0" "030" "120" "3" "4" "8" "3" startState) "030");
    reflexivity.
Defined.

(** X10.  A factor of safety text that denotes zero passes [isValidFloat]; the
    allowable capacity stored is then Infinity, -Infinity or NaN. *)
Theorem zero_FS_text_accepted
    (element : list (bool * string)) (st st' : State) (fsv : string) :
  inputsValid st = true -> FS st = Some fsv -> StringToNumber fsv = 0 ->
  handleCalculateBearingCapacity element st = Normal st' ->
  calculated st' = true /\
  (allowableCapacity st' = Some infinity \/
   allowableCapacity st' = Some neg_infinity \/
   allowableCapacity st' = Some nan).
Proof.
  intros Hv Hfs0 Hz HN.
  destruct (inputsValid_inv st Hv)
    as (c & ph & uw & d & w & gw & fsv' & Hc & Hph & Huw & Hd & Hw & Hgw & Hfs & Ht).
  assert (fsv' = fsv) by congruence. subst fsv'.
  destruct (handleCalculate_valid element st c ph uw d w gw fsv
              Hc Hph Huw Hd Hw Hgw Hfs Hv) as [e E].
  rewrite HN in E.
  destruct (OnStrings.constructor c ph d uw w (getRadioValue element) gw fsv)
    as [r|err] eqn:Er; [|discriminate E].
  injection E as ->. cbn. split; [reflexivity|].
  pose proof (formTexts_nonempty _ _ _ _ _ _ _ Ht) as Hne.
  destruct (constructor_texts _ _ _ _ _ _ _ _ _ Hne Er) as (_ & _ & _ & _ & _ & _ & _ & Ha).
  rewrite Ha, Hz.
  assert (Hq : OnStrings.bearingCapacity r / 0 = infinity \/
               OnStrings.bearingCapacity r / 0 = neg_infinity \/
               OnStrings.bearingCapacity r / 0 = nan)
    by (apply div_by_zero; reflexivity).
  rewrite (Math_round_not_finite _ Hq).
  destruct Hq as [-> | [-> | ->]]; auto.
Qed.

Lemma zero_FS_text_accepted_witness :
  exists st',
    handleCalculateBearingCapacity (formRadios false false false)
      (typed "0" "30" "120" "3" "4" "8" "0.0" startState) = Normal st' /\
    calculated st' = true /\ allowableCapacity st' = Some infinity.
Proof.
  destruct (handleCalculateBearingCapacity (formRadios false false false)
              (typed "0" "30" "120" "3" "4" "8" "0.0" startState))
    as [st'|e] eqn:E.
  - exists st'. split; [reflexivity|].
    destruct (zero_FS_text_accepted (formRadios false false false)
                (typed "0" "30" "120" "3" "4" "8" "0.0" startState) st' "0.0"
                eq_refl eq_refl eq_refl E) as [Hc _].
    split; [exact Hc|]. vm_compute in E. injection E as <-. reflexivity.
  - vm_compute in E. discriminate E.
Defined.

(** *** Handlers *)

(** X11.  What the seven change handlers leave behind decides whether the
    calculation runs: the state is valid exactly when the seven texts are. *)
Theorem typing_decides_validity (c ph uw d w gw fsv : string) (st : State) :
  inputsValid (typed c ph uw d w gw fsv st) = formTexts c ph uw d w gw fsv /\
  getFlag (error (typed c ph uw d w gw fsv st)) "phi"
  = Some (negb (fullmatch intPattern ph && PrimFloat.ltb (StringToNumber ph) 42)) /\
  getFlag (error (typed c ph uw d w gw fsv st)) "FS"
  = Some (negb (fullmatch floatPattern fsv)).
Proof.
  unfold typed, handleFS, handleGroundwaterDepth, handleWidth, handleDepth,
    handleUnitWeight, handlePhi, handleCohesion.
  rewrite ?snd_isValidFloat, snd_isValidInt, ?snd_isValidFloat.
  split; [reflexivity|].
  cbn [error withError setField]. rewrite !getFlag_setFlag. split; reflexivity.
Qed.

(** X12.  The factor of safety is kept under the key [FS] and its flag under
    [FS]: the [fs] value and the [fs] flag of the start state are never
    written, and neither is [renderedFS]. *)
Theorem handleFS_writes_FS (v : string) (st : State) :
  FS (handleFS v st) = Some v /\
  getFlag (error (handleFS v st)) "FS" = Some (negb (fullmatch floatPattern v)) /\
  getFlag (error (handleFS v st)) "fs" = getFlag (error st) "fs" /\
  fs (handleFS v st) = fs st /\ renderedFS (handleFS v st) = renderedFS st.
Proof.
  unfold handleFS. rewrite snd_isValidFloat. cbn [FS error fs renderedFS withError setField].
  rewrite !getFlag_setFlag. repeat split.
Qed.

(** X13.  Reset clears the six other fields and the results but not [FS]: after
    a reset, typing the six other texts is enough for the calculation to
    run with the factor of safety of before the reset. *)
Theorem reset_keeps_FS (c ph uw d w gw fsv : string) (st : State) :
  FS st = Some fsv ->
  let st' :=
    handleGroundwaterDepth gw (handleWidth w (handleDepth d
      (handleUnitWeight uw (handlePhi ph (handleCohesion c (handleReset st)))))) in
  inputsValid (handleReset st) = false /\
  renderedFS (handleReset st) = Num 3 /\
  FS st' = Some fsv /\
  inputsValid st' = formTexts c ph uw d w gw fsv.
Proof.
  intros Hfs st'. subst st'.
  unfold handleGroundwaterDepth, handleWidth, handleDepth,
    handleUnitWeight, handlePhi, handleCohesion.
  rewrite ?snd_isValidFloat, snd_isValidInt, ?snd_isValidFloat.
  split; [reflexivity|]. split; [reflexivity|].
  split; [exact Hfs|].
  unfold inputsValid. cbn [cohesion phi unitWeight depth width groundwaterDepth FS
                            withError setField handleReset String.eqb Ascii.eqb Bool.eqb].
  rewrite Hfs. reflexivity.
Qed.

Lemma reset_keeps_FS_witness :
  let st := typed "0" "30" "120" "3" "4" "8" "2.5" startState in
  let st' :=
    handleGroundwaterDepth "6" (handleWidth "5" (handleDepth "3.5"
      (handleUnitWeight "115" (handlePhi "28" (handleCohesion "500" (handleReset st)))))) in
  inputsValid (handleReset st) = false /\
  renderedFS (handleReset st) = Num 3 /\
  FS st' = Some "2.5"%string /\
  inputsValid st' = formTexts "500" "28" "115" "3.5" "5" "6" "2.5".
Proof.
  apply (reset_keeps_FS "500" "28" "115" "3.5" "5" "6" "2.5"
           (typed "0" "30" "120" "3" "4" "8" "2.5" startState)).
  reflexivity.
Defined.

End Form.

(** ** The class called with the strings of the form *)

(** X14.  The texts are compared as texts: a groundwater text that is not above
    the depth text in dictionary order gets the full buoyant reduction and
    the pore pressure branch, also when it is the larger number. *)
Theorem text_order_decides (c ph uw d w sh gw fsv : string)
    (r : OnStrings.TerzaghiBearingCapacity) :
  formTexts c ph uw d w gw fsv = true ->
  String.leb gw d = true ->
  (StringToNumber d <? StringToNumber gw) = true ->
  OnStrings.constructor c ph d uw w sh gw fsv = Normal r ->
  OnStrings.effectiveUnitWeight r = Num (StringToNumber uw - 62.4) /\
  OnStrings.effectiveStress r
  = StringToNumber uw * StringToNumber d
    - (StringToNumber d - StringToNumber gw) * 62.4.
Proof.
  intros Hv Hle Hnum H.
  pose proof (formTexts_nonempty _ _ _ _ _ _ _ Hv) as Hne.
  assert (Hgt : String.leb d gw = false).
  { destruct (String.leb d gw) eqn:E; [|reflexivity].
    pose proof (String.leb_antisym _ _ Hle E) as ->.
    now rewrite (ltb_ltb_false _ _ Hnum) in Hnum. }
  destruct (constructor_texts _ _ _ _ _ _ _ _ _ Hne H) as (_ & Hu & Hs & _).
  rewrite Hu, Hs, Hle, Hgt. split; reflexivity.
Qed.

Lemma text_order_decides_witness :
  exists r,
    OnStrings.constructor "0" "30" "9" "120" "4" "continuous" "10" "3" = Normal r /\
    OnStrings.effectiveUnitWeight r = Num (StringToNumber "120" - 62.4) /\
    OnStrings.effectiveStress r
    = StringToNumber "120" * StringToNumber "9"
      - (StringToNumber "9" - StringToNumber "10") * 62.4.
Proof.
  destruct (OnStrings.constructor "0" "30" "9" "120" "4" "continuous" "10" "3")
    as [r|e] eqn:E.
  - exists r. split; [reflexivity|].
    exact (text_order_decides "0" "30" "120" "9" "4" "continuous" "10" "3" r
             eq_refl eq_refl eq_refl E).
  - vm_compute in E. discriminate E.
Defined.

(** X15.  Which branch of lines 100-106 a call from the form takes.  Line 97
    never applies; the interpolation branch is taken exactly when the
    groundwater text is the depth text followed by a text below the width
    text. *)
Theorem groundwater_text_branches (c ph uw d w sh gw fsv : string)
    (r : OnStrings.TerzaghiBearingCapacity) :
  formTexts c ph uw d w gw fsv = true ->
  OnStrings.constructor c ph d uw w sh gw fsv = Normal r ->
  OnStrings.groundwaterDepth r = Str gw /\
  ((String.leb gw d = true /\
    OnStrings.effectiveUnitWeight r = Num (StringToNumber uw - 62.4)) \/
   (exists t : string,
      t <> EmptyString /\ gw = (d ++ t)%string /\ String.ltb t w = true /\
      OnStrings.effectiveUnitWeight r
      = Num (StringToNumber uw
             - 62.4 * (1 - (StringToNumber gw - StringToNumber d)
                           / StringToNumber w))) \/
   (String.leb gw d = false /\
    (forall t : string, gw = (d ++ t)%string -> String.ltb t w = false) /\
    OnStrings.effectiveUnitWeight r = Str uw)).
Proof.
  intros Hv H.
  pose proof (formTexts_nonempty _ _ _ _ _ _ _ Hv) as Hne.
  destruct (constructor_texts _ _ _ _ _ _ _ _ _ Hne H) as (Hg & Hu & _).
  split; [exact Hg|]. rewrite Hu.
  destruct (String.leb gw d) eqn:Hle; [left; now split|].
  right. destruct (String.ltb d gw && String.ltb gw (d ++ w)) eqn:Hmid.
  - left. apply andb_true_iff in Hmid. destruct Hmid as [H1 H2].
    destruct (string_between d gw w H1 H2) as (t & E & Ht & Hlt).
    exists t. repeat split; assumption.
  - right. split; [reflexivity|]. split; [|reflexivity].
    intros t E. destruct (String.ltb t w) eqn:Hlt; [|reflexivity].
    exfalso. destruct t as [|a t].
    + rewrite append_nil_r in E. subst gw. now rewrite string_leb_refl in Hle.
    + assert (H1 : String.ltb d gw = true) by (subst gw; now apply string_ltb_extend).
      assert (H2 : String.ltb gw (d ++ w) = true)
        by (subst gw; unfold String.ltb; rewrite string_compare_app; exact Hlt).
      now rewrite H1, H2 in Hmid.
Qed.

Lemma groundwater_text_branches_witness :
  exists r,
    OnStrings.constructor "0" "30" "3" "120" "4" "continuous" "32" "3" = Normal r /\
    OnStrings.groundwaterDepth r = Str "32" /\
    exists t : string,
      t <> EmptyString /\ "32"%string = ("3" ++ t)%string /\ String.ltb t "4" = true /\
      OnStrings.effectiveUnitWeight r
      = Num (StringToNumber "120"
             - 62.4 * (1 - (StringToNumber "32" - StringToNumber "3")
                           / StringToNumber "4")).
Proof.
  destruct (OnStrings.constructor "0" "30" "3" "120" "4" "continuous" "32" "3")
    as [r|e] eqn:E.
  - exists r. split; [reflexivity|].
    destruct (groundwater_text_branches "0" "30" "120" "3" "4" "continuous" "32" "3" r
                eq_refl E) as [Hg [[Hle _] | [Hmid | [_ [Hno _]]]]].
    + discriminate Hle.
    + split; [exact Hg | exact Hmid].
    + specialize (Hno "2"%string eq_refl). discriminate Hno.
  - vm_compute in E. discriminate E.
Defined.

Lemma get_texts_numbers ph row :
  OnStrings.get NTerzaghi ph = Some row ->
  get NTerzaghi (StringToNumber ph) = Some row.
Proof.
  intros H. destruct (get_Some_key _ _ _ H) as (k & Hk & ->).
  apply keys_range in Hk.
  rewrite (StringToNumber_numeral k Hk).
  destruct (get_numeral k Hk) as (E1 & _ & _). destruct (get_of_Z k Hk) as [E2 _].
  congruence.
Qed.

(** X16.  The form computes what the class computes on the Numbers the texts
    denote whenever the four comparisons of lines 100-109 come out on the
    texts as they do on the Numbers, and the groundwater Number is truthy. *)
Theorem texts_agree_with_numbers (c ph uw d w sh gw fsv : string)
    (r : OnStrings.TerzaghiBearingCapacity) :
  formTexts c ph uw d w gw fsv = true ->
  OnStrings.constructor c ph d uw w sh gw fsv = Normal r ->
  ToBoolean (Some (StringToNumber gw)) = true ->
  String.leb gw d = (StringToNumber gw <=? StringToNumber d) ->
  String.ltb d gw = (StringToNumber d <? StringToNumber gw) ->
  String.ltb gw (d ++ w) = (StringToNumber gw <? StringToNumber d + StringToNumber w) ->
  String.leb d gw = geb (StringToNumber gw) (StringToNumber d) ->
  exists r' : TerzaghiBearingCapacity,
    constructor (StringToNumber c) (StringToNumber ph) (StringToNumber d)
      (StringToNumber uw) (StringToNumber w) sh (Some (StringToNumber gw))
      (StringToNumber fsv) = Normal r' /\
    effectiveUnitWeight r' = ToNumberV (OnStrings.effectiveUnitWeight r) /\
    effectiveStress r' = OnStrings.effectiveStress r /\
    (Nc r', Nq r', Ng r') = (OnStrings.Nc r, OnStrings.Nq r, OnStrings.Ng r) /\
    bearingCapacity r' = OnStrings.bearingCapacity r /\
    allowableCapacity r' = OnStrings.allowableCapacity r.
Proof.
  intros Hv H Ht H1 H2 H3 H4.
  pose proof (formTexts_nonempty _ _ _ _ _ _ _ Hv) as Hne.
  destruct (constructor_texts _ _ _ _ _ _ _ _ _ Hne H)
    as (_ & Hu & Hs & Hg & Hc & _ & Hb & Ha).
  apply get_texts_numbers in Hg.
  destruct (constructor_Normal (StringToNumber c) (StringToNumber ph) (StringToNumber d)
              (StringToNumber uw) (StringToNumber w) sh (Some (StringToNumber gw))
              (StringToNumber fsv) _ _ _ Hg) as (r' & E & B).
  exists r'. split; [exact E|].
  destruct B as (_ & _ & _ & _ & _ & _ & _ & Bg & Bu & Bs & Bnc & Bnq & Bng & Bc & Bb & Ba).
  unfold defaultGroundwaterDepth in Bg. rewrite Ht in Bg. cbn [negb ToNumber] in Bg.
  rewrite Bg in Bu, Bs.
  unfold effectiveUnitWeightOf in Bu. rewrite <- H1, <- H2, <- H3 in Bu.
  unfold effectiveStressOf in Bs. rewrite <- H4 in Bs. cbn [ToNumber] in Bs.
  unfold unitWeightWater in Bu, Bs.
  assert (Eu : effectiveUnitWeight r' = ToNumberV (OnStrings.effectiveUnitWeight r)).
  { rewrite Bu, Hu. destruct (String.leb gw d); [reflexivity|].
    destruct (String.ltb d gw && String.ltb gw (d ++ w)); reflexivity. }
  assert (Es : effectiveStress r' = OnStrings.effectiveStress r)
    by (rewrite Bs, Hs; destruct (String.leb d gw); reflexivity).
  assert (Ec : (coef1 r', coef2 r', coef3 r')
               = (OnStrings.coef1 r, OnStrings.coef2 r, OnStrings.coef3 r)).
  { rewrite <- Hc in Bc. now injection Bc as -> -> -> _ _. }
  injection Ec as Ec1 Ec2 Ec3.
  assert (Eb : bearingCapacity r' = OnStrings.bearingCapacity r)
    by (rewrite Bb, Hb, Eu, Es, Ec1, Ec2, Ec3; reflexivity).
  repeat split; try assumption.
  - now rewrite Bnc, Bnq, Bng.
  - now rewrite Ba, Ha, Eb.
Qed.

Lemma texts_agree_with_numbers_witness :
  exists r r',
    OnStrings.constructor "500" "28" "3.5" "115" "5" "square" "9" "2" = Normal r /\
    constructor 500 28 3.5 115 5 "square" (Some 9) 2 = Normal r' /\
    bearingCapacity r' = OnStrings.bearingCapacity r /\
    allowableCapacity r' = OnStrings.allowableCapacity r.
Proof.
  destruct (OnStrings.constructor "500" "28" "3.5" "115" "5" "square" "9" "2")
    as [r|e] eqn:E.
  - exists r.
    destruct (texts_agree_with_numbers "500" "28" "115" "3.5" "5" "square" "9" "2" r
                eq_refl E eq_refl eq_refl eq_refl eq_refl eq_refl)
      as (r' & E' & _ & _ & _ & Hb & Ha).
    exists r'. split; [reflexivity|]. split; [exact E'|]. split; assumption.
  - vm_compute in E. discriminate E.
Defined.

(** * The class on Numbers, further properties *)

Lemma eqb_leb (x y : number) : (x =? y) = true -> (x <=? y) = true.
Proof.
  rewrite eqb_spec, leb_spec. unfold SFeqb, SFleb.
  now destruct (SFcompare (Prim2SF x) (Prim2SF y)) as [[]|].
Qed.

Lemma eqb_geb (x y : number) : (x =? y) = true -> geb x y = true.
Proof.
  unfold geb. rewrite eqb_spec, leb_spec. unfold SFeqb, SFleb.
  rewrite (Binary64.SFcompare_antisym (Prim2SF x) (Prim2SF y)).
  now destruct (SFcompare (Prim2SF x) (Prim2SF y)) as [[]|].
Qed.

(** X17.  For a supplied groundwater depth that is not zero and not NaN the class
    applies the three cases of lines 100-106 and the two cases of lines
    109-114 to it; a groundwater depth equal to the depth takes the first
    branch of both. *)
Theorem groundwater_rule_nonzero (c ph D uw B : number) (sh : string)
    (Dw fs : number) :
  integer_0_41 ph = true -> ToBoolean (Some Dw) = true ->
  exists r,
    constructor c ph D uw B sh (Some Dw) fs = Normal r /\
    groundwaterDepth r = Dw /\
    ((Dw <=? D) = true -> effectiveUnitWeight r = uw - 62.4) /\
    ((D <? Dw) = true -> (Dw <? D + B) = true ->
     effectiveUnitWeight r = uw - 62.4 * (1 - (Dw - D) / B)) /\
    ((Dw <=? D) = false -> (Dw <? D + B) = false -> effectiveUnitWeight r = uw) /\
    (geb Dw D = true -> effectiveStress r = uw * D) /\
    ((Dw <? D) = true -> effectiveStress r = uw * D - (D - Dw) * 62.4) /\
    ((Dw =? D) = true ->
     effectiveUnitWeight r = uw - 62.4 /\ effectiveStress r = uw * D).
Proof.
  intros H Ht.
  destruct (constructor_integer c ph D uw B sh (Some Dw) fs H)
    as (r & nc & nq & ng & _ & Hr & Hb).
  exists r. split; [exact Hr|]. unfold built in Hb.
  destruct Hb as (_ & _ & _ & _ & _ & _ & _ & Hg & Hu & Hs & _).
  rewrite (defaultGroundwaterDepth_supplied D B Dw Ht) in Hg.
  rewrite Hg in Hu, Hs. rewrite Hu, Hs.
  destruct (effectiveUnitWeightOf_cases D uw B Dw) as (U1 & U2 & _).
  destruct (effectiveStressOf_cases D uw Dw) as (S1 & S2).
  split; [exact Hg|]. split; [exact U1|]. split; [exact U2|].
  split; [apply effectiveUnitWeightOf_beyond|].
  split; [exact S1|]. split; [exact S2|].
  intros E. split; [apply U1, eqb_leb, E | apply S1, eqb_geb, E].
Qed.

Lemma groundwater_rule_nonzero_witness :
  exists r,
    constructor 500 28 3.5 115 5 "square" (Some 6) 2 = Normal r /\
    groundwaterDepth r = 6 /\
    effectiveUnitWeight r = 115 - 62.4 * (1 - (6 - 3.5) / 5) /\
    effectiveStress r = 115 * 3.5.
Proof.
  destruct (groundwater_rule_nonzero 500 28 3.5 115 5 "square" 6 2 eq_refl eq_refl)
    as (r & E & Hg & _ & Hu & _ & Hs & _).
  exists r. split; [exact E|]. split; [exact Hg|].
  split; [apply Hu; reflexivity | apply Hs; reflexivity].
Defined.

(** X18.  Every falsy groundwater depth, [-0] and NaN as well as [0], is replaced
    as an omitted one is: for a finite depth [D >= 0] and a width [B > 0]
    the call returns what the call without a groundwater depth returns. *)
Theorem falsy_groundwater_as_omitted (c ph D uw B : number) (sh : string)
    (Dw fs : number) :
  ToBoolean (Some Dw) = false ->
  (0 <=? D) = true -> (D <? infinity) = true -> (0 <? B) = true ->
  constructor c ph D uw B sh (Some Dw) fs = constructor c ph D uw B sh None fs.
Proof.
  intros Hf HD HDf HB.
  destruct (default_beyond_zone D B HD HDf HB) as (Z1 & Z2 & Z3 & Z4).
  unfold constructor. rewrite (defaultGroundwaterDepth_falsy D B (Some Dw) Hf).
  change (defaultGroundwaterDepth D B None) with (2 * (D + B)).
  rewrite !(effectiveStressOf_above D uw _ _ Z3). reflexivity.
Qed.

Lemma falsy_groundwater_as_omitted_witness :
  constructor 0 30 3 120 4 "continuous" (Some nan) 3
  = constructor 0 30 3 120 4 "continuous" None 3 /\
  constructor 0 30 3 120 4 "continuous" (Some (-0)) 3
  = constructor 0 30 3 120 4 "continuous" None 3.
Proof.
  split.
  - apply (falsy_groundwater_as_omitted 0 30 3 120 4 "continuous" nan 3); reflexivity.
  - apply (falsy_groundwater_as_omitted 0 30 3 120 4 "continuous" (-0) 3); reflexivity.
Defined.

(** ** [Math.round] returns an integer

    [Math.round] of a finite Number with a fractional part is the float of
    an integer below [2 ^ 53] in magnitude; such a float holds the integer
    exactly, and rounding it again gives it back. *)

Module Integral.
Import Binary64.
Local Open Scope Z_scope.

Local Abbreviation fexp64 := (SpecFloat.fexp prec emax).

(** A canonical mantissa is left as it is. *)
Lemma binary_round_aux_canonical s m e :
  bounded prec emax m e = true ->
  binary_round_aux prec emax s (Zpos m) e loc_Exact = S754_finite s m e.
Proof.
  intros Hb. destruct (bounded_inv m e Hb) as [Hc He].
  unfold binary_round_aux, shr_fexp. cbn [Zdigits2 shr_record_of_loc].
  rewrite Hc, Z.sub_diag. cbn [shr shr_m loc_of_shr_record round_nearest_even Zdigits2
                                shr_record_of_loc].
  rewrite Hc, Z.sub_diag. cbn [shr shr_m].
  replace (e <=? emax - prec) with true; [reflexivity|].
  symmetry. apply Z.leb_le. unfold emax, prec. lia.
Qed.

(** The float of an integer of at most 53 bits is that integer. *)
Lemma binary_round_integer s p :
  Zpos (digits2_pos p) <= 53 ->
  exists mz ez,
    binary_round prec emax s p 0 = S754_finite s mz ez /\
    Zpos mz = Zpos p * 2 ^ (- ez) /\ ez <= 0 /\
    bounded prec emax mz ez = true.
Proof.
  intros Hd. unfold binary_round.
  set (E := fexp64 (Zpos (digits2_pos p) + 0)).
  assert (HE : E = Zpos (digits2_pos p) - 53).
  { unfold E, SpecFloat.fexp, SpecFloat.emin, prec, emax. lia. }
  assert (HE0 : E <= 0) by lia.
  pose proof (shl_align_fst p 0 E HE0) as Hm.
  assert (Hs : snd (shl_align p 0 E) = E).
  { unfold shl_align. destruct (E - 0) as [|d|d] eqn:Ed; cbn [snd]; lia. }
  destruct (shl_align p 0 E) as [mz ez]. cbn [fst snd] in Hm, Hs. subst ez.
  replace (0 - E) with (- E) in Hm by lia.
  assert (Hdz : Zpos (digits2_pos mz) = Zpos (digits2_pos p) + - E)
    by (apply digits2_mul_pow2; [lia | exact Hm]).
  assert (Hb : bounded prec emax mz E = true).
  { unfold bounded, canonical_mantissa. apply andb_true_iff. split.
    - apply Z.eqb_eq. rewrite Hdz.
      unfold SpecFloat.fexp, SpecFloat.emin, prec, emax. lia.
    - apply Z.leb_le. unfold emax, prec. lia. }
  exists mz, E. split; [now apply binary_round_aux_canonical|].
  split; [exact Hm|]. split; assumption.
Qed.

(** Rounding half up what is below [2 ^ 53] stays within 53 bits. *)
Lemma round_half_up_bound (s : bool) m e :
  Zpos (digits2_pos m) <= 53 -> e < 0 ->
  Z.abs (Z.shiftr (cond_Zopp s (Zpos m) + 2 ^ (- e - 1)) (- e)) < 2 ^ 53.
Proof.
  intros Hd He. rewrite Z.shiftr_div_pow2 by lia.
  pose proof (digits2_bounds m) as [_ Hu].
  assert (Hm : Zpos m < 2 ^ 53).
  { apply Z.lt_le_trans with (1 := Hu). apply Z.pow_le_mono_r; lia. }
  set (h := 2 ^ (- e - 1)).
  assert (Hh : 0 < h) by (apply Z.pow_pos_nonneg; lia).
  assert (Hq : 2 ^ (- e) = 2 * h).
  { unfold h. rewrite <- Z.pow_succ_r by lia. f_equal. lia. }
  rewrite Hq. replace (2 ^ 53) with 9007199254740992 in * by reflexivity.
  destruct s; cbn [cond_Zopp].
  - assert (- 9007199254740992 < (- Zpos m + h) / (2 * h) <= 0).
    { split.
      - apply Z.lt_le_trans with (- 9007199254740992 + 1); [lia|].
        apply Z.div_le_lower_bound; nia.
      - assert ((- Zpos m + h) / (2 * h) < 1) by (apply Z.div_lt_upper_bound; lia).
        lia. }
    lia.
  - assert (0 <= (Zpos m + h) / (2 * h) < 9007199254740992).
    { split.
      - apply Z.div_pos; lia.
      - apply Z.div_lt_upper_bound; nia. }
    lia.
Qed.

(** Rounding half up an integer gives the integer. *)
Lemma round_half_up_integer (s : bool) p k :
  0 < k ->
  Z.shiftr (cond_Zopp s (Zpos p * 2 ^ k) + 2 ^ (k - 1)) k = cond_Zopp s (Zpos p).
Proof.
  intros Hk. rewrite Z.shiftr_div_pow2 by lia.
  set (h := 2 ^ (k - 1)).
  assert (Hh : 0 < h) by (apply Z.pow_pos_nonneg; lia).
  assert (Hq : 2 ^ k = 2 * h).
  { unfold h. rewrite <- Z.pow_succ_r by lia. f_equal. lia. }
  rewrite Hq. symmetry.
  apply Z.div_unique with (r := h); [lia|].
  destruct s; cbn [cond_Zopp]; lia.
Qed.

Lemma binary_normalize_sign n s s' :
  n <> 0 -> binary_normalize prec emax n 0 s = binary_normalize prec emax n 0 s'.
Proof. destruct n; [contradiction|reflexivity|reflexivity]. Qed.

Lemma binary_normalize_integer n s :
  n <> 0 -> Z.abs n < 2 ^ 53 ->
  exists mz ez,
    binary_normalize prec emax n 0 s = S754_finite (n <? 0) mz ez /\
    cond_Zopp (n <? 0) (Zpos mz) = n * 2 ^ (- ez) /\ ez <= 0 /\
    bounded prec emax mz ez = true.
Proof.
  intros Hn Hb.
  assert (Hd : forall p, Zpos p < 2 ^ 53 -> Zpos (digits2_pos p) <= 53).
  { intros p Hp. pose proof (digits2_bounds p) as [Hl _].
    destruct (Z_le_gt_dec (Zpos (digits2_pos p)) 53); [assumption|].
    assert (2 ^ 53 <= 2 ^ (Zpos (digits2_pos p) - 1)) by (apply Z.pow_le_mono_r; lia).
    lia. }
  destruct n as [|p|p]; [contradiction| |]; cbn [binary_normalize Z.ltb Z.compare].
  - destruct (binary_round_integer false p (Hd p ltac:(lia))) as (mz & ez & E & Hm & He & Hv).
    exists mz, ez. cbn [cond_Zopp]. repeat split; assumption.
  - destruct (binary_round_integer true p (Hd p ltac:(lia))) as (mz & ez & E & Hm & He & Hv).
    exists mz, ez. cbn [cond_Zopp]. repeat split; try assumption. lia.
Qed.

End Integral.

(** [Math.round] gives a fixed point of [Math.round]. *)
Lemma Math_round_idempotent (x : number) :
  Math_round (Math_round x) = Math_round x.
Proof.
  unfold Math_round at 2 3.
  destruct (Prim2SF x) as [s|s| |s m e] eqn:Ex;
    try (unfold Math_round; rewrite Ex; reflexivity).
  destruct (0 <=? e)%Z eqn:He; [unfold Math_round; rewrite Ex, He; reflexivity|].
  apply Z.leb_gt in He.
  set (n := Z.shiftr (cond_Zopp s (Zpos m) + 2 ^ (- e - 1)) (- e)).
  assert (Hv : valid_binary (Prim2SF x) = true) by apply Prim2SF_valid.
  rewrite Ex in Hv. cbn [valid_binary] in Hv.
  destruct (Binary64.bounded_inv m e Hv) as [Hc _].
  assert (Hd : (Zpos (digits2_pos m) <= 53)%Z).
  { revert Hc. unfold SpecFloat.fexp, SpecFloat.emin, prec, emax. lia. }
  pose proof (Integral.round_half_up_bound s m e Hd He) as Hn. fold n in Hn.
  destruct (Z.eq_dec n 0) as [En|En].
  - rewrite En. cbn [binary_normalize]. unfold Math_round.
    rewrite Prim2SF_SF2Prim by reflexivity. reflexivity.
  - destruct (Integral.binary_normalize_integer n s En Hn) as (mz & ez & E & Hm & Hez & Hb).
    rewrite E. unfold Math_round. rewrite Prim2SF_SF2Prim by exact Hb.
    destruct (0 <=? ez)%Z eqn:Hz; [reflexivity|].
    apply Z.leb_gt in Hz. f_equal.
    assert (Hp : exists p, n = cond_Zopp (n <? 0)%Z (Zpos p)).
    { destruct n as [|p|p]; [contradiction| |]; exists p; reflexivity. }
    destruct Hp as [p Hp].
    assert (Hmz : Zpos mz = (Zpos p * 2 ^ (- ez))%Z).
    { rewrite Hp in Hm at 2. destruct (n <? 0)%Z; cbn [cond_Zopp] in Hm; lia. }
    rewrite Hmz.
    replace (- ez - 1)%Z with (- ez - 1)%Z by reflexivity.
    rewrite (Integral.round_half_up_integer (n <? 0)%Z p (- ez)%Z) by lia.
    rewrite <- Hp, <- E. apply Integral.binary_normalize_sign. exact En.
Qed.

(** X19.  What the class stores in [bearingCapacity] and [allowableCapacity] has
    been rounded: [Math.round] leaves both as they are. *)
Theorem results_are_rounded (c ph D uw B : number) (sh : string)
    (Dw : optnumber) (fs : number) (r : TerzaghiBearingCapacity) :
  constructor c ph D uw B sh Dw fs = Normal r ->
  Math_round (bearingCapacity r) = bearingCapacity r /\
  Math_round (allowableCapacity r) = allowableCapacity r.
Proof.
  unfold constructor.
  destruct (get NTerzaghi ph) as [[[nc nq] ng]|]; [|discriminate].
  destruct (shapeCoefficients sh) as [[[[c1 c2] c3] eq] out].
  intros H. injection H as <-. cbn [bearingCapacity allowableCapacity].
  split; apply Math_round_idempotent.
Qed.

Lemma results_are_rounded_witness :
  exists r,
    constructor 500 28 3.5 115 5 "square" (Some 6) 2.5 = Normal r /\
    Math_round (bearingCapacity r) = bearingCapacity r /\
    Math_round (allowableCapacity r) = allowableCapacity r.
Proof.
  destruct (constructor 500 28 3.5 115 5 "square" (Some 6) 2.5) as [r|e] eqn:E.
  - exists r. split; [reflexivity|].
    exact (results_are_rounded 500 28 3.5 115 5 "square" (Some 6) 2.5 r E).
  - vm_compute in E. discriminate E.
Defined.
